(** * Session controller of the developer portal (services/self)

    A shallow embedding of the session / authentication controller that
    accompanies [NavBar.jsx]: the token predicates, the inactivity timer,
    [init], [login], [setCredentials] and [logout], over an explicit model
    of the browser state they read and write. *)

From Stdlib Require Import ZArith String Ascii List Lia Bool.
From stdpp Require Import base strings gmap list.

Import ListNotations.
Local Open Scope string_scope.
Local Open Scope Z_scope.

(* stdpp freezes string concatenation; the proofs below compute with it *)
#[local] Arguments String.append !_ _ / : simpl nomatch.

(** ** JavaScript string primitives used by the controller *)

Module JsString.

(** [s.split(sep)] for a one-character separator: never empty, the empty
    string splits into one empty piece. *)
Fixpoint split (sep : ascii) (s : string) : list string :=
  match s with
  | EmptyString => [EmptyString]
  | String c t =>
      if Ascii.eqb c sep then EmptyString :: split sep t
      else match split sep t with
           | [] => [String c EmptyString]
           | piece :: rest => String c piece :: rest
           end
  end.

(** [hay.includes(needle)]. *)
Fixpoint includes (needle hay : string) : bool :=
  String.prefix needle hay
  || match hay with
     | EmptyString => false
     | String _ t => includes needle t
     end.

(** [s.replace(/^#/, '')]. *)
Definition strip_hash (s : string) : string :=
  match s with
  | String c t => if Ascii.eqb c "#" then t else s
  | EmptyString => s
  end.

(** The character [c] occurs in [s]. *)
Fixpoint mem (c : ascii) (s : string) : bool :=
  match s with
  | EmptyString => false
  | String d t => Ascii.eqb d c || mem c t
  end.

End JsString.

(** ** Data model *)

(** A JavaScript value that is a string or absent ([undefined] / [null]). *)
Definition truthy (v : option string) : bool :=
  match v with
  | Some s => negb (String.eqb s "")
  | None => false
  end.

(** What the boolean-valued predicates return: [a && b] hands back [a]
    itself when it is falsy. *)
Inductive value :=
| VAbsent
| VString (s : string)
| VBool (b : bool).

Definition of_token (v : option string) : value :=
  match v with
  | Some s => VString s
  | None => VAbsent
  end.

Definition to_boolean (v : value) : bool :=
  match v with
  | VAbsent => false
  | VString s => negb (String.eqb s "")
  | VBool b => b
  end.

(** The two claims of a decoded token that the controller reads. *)
Record DecodedToken := {
  exp : option Z;                     (* epoch seconds *)
  preferred_role : option string      (* 'cognito:preferred_role' *)
}.

(** Constants imported from services/api and the window object. *)
Record Config := {
  cognitoDomain : option string;
  cognitoClientId : string;
  cognitoUserPoolId : string;
  cognitoIdentityPoolId : string;
  cognitoRegion : string;
  configSessionTimeout : option Z;    (* window.config.clientSessionTimeout *)
  protocol : string;                  (* window.location.protocol *)
  host : string                       (* window.location.host *)
}.

(** Parameters of [new AWS.CognitoIdentityCredentials(params)]. *)
Record CognitoParams := {
  IdentityPoolId : string;
  Logins : string * string;
  RoleArn : option string
}.

Inductive error :=
| InvalidTokenError (token : option string)   (* thrown by jwtDecode *)
| ExchangeError (msg : string).               (* handed to the refresh callback *)

Inductive promise (A : Type) :=
| Pending
| Resolved (v : A)
| Rejected (e : error).
Arguments Pending {A}.
Arguments Resolved {A} v.
Arguments Rejected {A} e.

(** Calls that leave the module, in the order they are made. *)
Inductive effect :=
| InitApiGatewayClient (creds : option CognitoParams)
| ConsoleError (e : error)
| SetTimeout (h : positive) (delay : Z)
| ClearTimeout (h : option positive)
| RequestAnimationFrame
| Navigate (url : string)                     (* window.location = url *)
| CredentialsRefresh (p : nat)                (* AWS.config.credentials.refresh(cb) *)
| UpdateAllUserData
| PostSignin.

(** The mutable state the module touches. *)
Record World := {
  idToken : option string;                    (* store.idToken *)
  localStorage : gmap string string;          (* window.localStorage *)
  hash : string;                              (* window.location.hash *)
  clock : Z;                                  (* new Date(), milliseconds *)
  hasReset : bool;
  inactivityTimeout : option positive;
  nextHandle : positive;                      (* next handle setTimeout returns *)
  timers : list (positive * Z);               (* pending timeouts: handle, due time *)
  frames : nat;                               (* pending animation-frame callbacks *)
  credentials : option CognitoParams;         (* AWS.config.credentials *)
  promises : list (promise unit);             (* promises made by setCredentials *)
  effects : list effect
}.

Definition set_idToken (v : option string) (w : World) : World :=
  {| idToken := v; localStorage := localStorage w; hash := hash w; clock := clock w;
     hasReset := hasReset w; inactivityTimeout := inactivityTimeout w;
     nextHandle := nextHandle w; timers := timers w; frames := frames w;
     credentials := credentials w; promises := promises w; effects := effects w |}.

Definition set_localStorage (m : gmap string string) (w : World) : World :=
  {| idToken := idToken w; localStorage := m; hash := hash w; clock := clock w;
     hasReset := hasReset w; inactivityTimeout := inactivityTimeout w;
     nextHandle := nextHandle w; timers := timers w; frames := frames w;
     credentials := credentials w; promises := promises w; effects := effects w |}.

Definition set_hash (s : string) (w : World) : World :=
  {| idToken := idToken w; localStorage := localStorage w; hash := s; clock := clock w;
     hasReset := hasReset w; inactivityTimeout := inactivityTimeout w;
     nextHandle := nextHandle w; timers := timers w; frames := frames w;
     credentials := credentials w; promises := promises w; effects := effects w |}.

Definition set_clock (t : Z) (w : World) : World :=
  {| idToken := idToken w; localStorage := localStorage w; hash := hash w; clock := t;
     hasReset := hasReset w; inactivityTimeout := inactivityTimeout w;
     nextHandle := nextHandle w; timers := timers w; frames := frames w;
     credentials := credentials w; promises := promises w; effects := effects w |}.

Definition set_hasReset (b : bool) (w : World) : World :=
  {| idToken := idToken w; localStorage := localStorage w; hash := hash w; clock := clock w;
     hasReset := b; inactivityTimeout := inactivityTimeout w;
     nextHandle := nextHandle w; timers := timers w; frames := frames w;
     credentials := credentials w; promises := promises w; effects := effects w |}.

Definition set_inactivityTimeout (h : option positive) (w : World) : World :=
  {| idToken := idToken w; localStorage := localStorage w; hash := hash w; clock := clock w;
     hasReset := hasReset w; inactivityTimeout := h;
     nextHandle := nextHandle w; timers := timers w; frames := frames w;
     credentials := credentials w; promises := promises w; effects := effects w |}.

Definition set_timers (n : positive) (q : list (positive * Z)) (w : World) : World :=
  {| idToken := idToken w; localStorage := localStorage w; hash := hash w; clock := clock w;
     hasReset := hasReset w; inactivityTimeout := inactivityTimeout w;
     nextHandle := n; timers := q; frames := frames w;
     credentials := credentials w; promises := promises w; effects := effects w |}.

Definition set_frames (n : nat) (w : World) : World :=
  {| idToken := idToken w; localStorage := localStorage w; hash := hash w; clock := clock w;
     hasReset := hasReset w; inactivityTimeout := inactivityTimeout w;
     nextHandle := nextHandle w; timers := timers w; frames := n;
     credentials := credentials w; promises := promises w; effects := effects w |}.

Definition set_credentials (c : option CognitoParams) (w : World) : World :=
  {| idToken := idToken w; localStorage := localStorage w; hash := hash w; clock := clock w;
     hasReset := hasReset w; inactivityTimeout := inactivityTimeout w;
     nextHandle := nextHandle w; timers := timers w; frames := frames w;
     credentials := c; promises := promises w; effects := effects w |}.

Definition set_promises (ps : list (promise unit)) (w : World) : World :=
  {| idToken := idToken w; localStorage := localStorage w; hash := hash w; clock := clock w;
     hasReset := hasReset w; inactivityTimeout := inactivityTimeout w;
     nextHandle := nextHandle w; timers := timers w; frames := frames w;
     credentials := credentials w; promises := ps; effects := effects w |}.

Definition set_effects (es : list effect) (w : World) : World :=
  {| idToken := idToken w; localStorage := localStorage w; hash := hash w; clock := clock w;
     hasReset := hasReset w; inactivityTimeout := inactivityTimeout w;
     nextHandle := nextHandle w; timers := timers w; frames := frames w;
     credentials := credentials w; promises := promises w; effects := es |}.

(** A page that has just loaded: the module-level [let]s hold their
    initial values and only the durable storage survives. *)
Definition pageLoad (storage : gmap string string) (fragment : string) (now : Z) : World :=
  {| idToken := None; localStorage := storage; hash := fragment; clock := now;
     hasReset := false; inactivityTimeout := None;
     nextHandle := 1%positive; timers := []; frames := 0%nat;
     credentials := None; promises := []; effects := [] |}.

(** ** Statements that may throw: state plus exceptions

    A thrown error keeps the writes made before it, as in JavaScript. *)

Inductive outcome (A : Type) :=
| Ret (a : A)
| Throw (e : error).
Arguments Ret {A} a.
Arguments Throw {A} e.

Definition M (A : Type) : Type := World -> outcome A * World.

Definition ret {A} (a : A) : M A := fun w => (Ret a, w).

Definition throw {A} (e : error) : M A := fun w => (Throw e, w).

Definition bind {A B} (m : M A) (k : A -> M B) : M B :=
  fun w =>
    match m w with
    | (Ret a, w') => k a w'
    | (Throw e, w') => (Throw e, w')
    end.

Definition try_catch {A} (m : M A) (handler : error -> M A) : M A :=
  fun w =>
    match m w with
    | (Ret a, w') => (Ret a, w')
    | (Throw e, w') => handler e w'
    end.

Definition gets {A} (f : World -> A) : M A := fun w => (Ret (f w), w).

Definition modify (f : World -> World) : M unit := fun w => (Ret tt, f w).

Notation "'let*' x ':=' m 'in' k" := (bind m (fun x => k))
  (at level 10, x name, m at level 100, k at level 200).
Notation "m ';;' k" := (bind m (fun _ => k))
  (at level 100, k at level 200, right associativity).

Definition emit (e : effect) : M unit :=
  modify (fun w => set_effects (effects w ++ [e]) w).

(** ** Browser primitives *)

(** [setTimeout(logoutInactive, delay)]: every timeout of this module runs
    [logoutInactive]; the handle is a new positive integer. *)
Definition setTimeout (delay : Z) : M positive :=
  let* h := gets nextHandle in
  let* now := gets clock in
  modify (fun w => set_timers (Pos.succ h) (timers w ++ [(h, now + delay)]) w) ;;
  emit (SetTimeout h delay) ;;
  ret h.

Definition cancel (h : option positive) (q : list (positive * Z)) : list (positive * Z) :=
  match h with
  | Some h => List.filter (fun t => negb (Pos.eqb (fst t) h)) q
  | None => q
  end.

(** [clearTimeout(handle)]: nothing happens for a handle that is absent or
    no longer pending. *)
Definition clearTimeout (h : option positive) : M unit :=
  modify (fun w => set_timers (nextHandle w) (cancel h (timers w)) w) ;;
  emit (ClearTimeout h).

(** [requestAnimationFrame(() => { hasReset = false })]. *)
Definition requestAnimationFrame : M unit :=
  modify (fun w => set_frames (S (frames w)) w) ;;
  emit RequestAnimationFrame.

Definition localStorage_getItem (key : string) : M (option string) :=
  gets (fun w => localStorage w !! key).

Definition localStorage_setItem (key val : string) : M unit :=
  modify (fun w => set_localStorage (<[key := val]> (localStorage w)) w).

Definition localStorage_clear : M unit :=
  modify (set_localStorage ∅).

(** Modelled from the spec: [store.resetUserData()] of services/state,
    which is not part of the sources at hand; it clears the token together
    with the cached user data, of which the token is the only part this
    module reads. *)
Definition resetUserData : M unit :=
  modify (set_idToken None).

(** ** The controller (services/self) *)

Section Controller.

Variable cfg : Config.

(** [jwtDecode] of the jwt-decode package: [None] stands for a throw. *)
Variable jwtDecode : string -> option DecodedToken.

Definition decode (token : option string) : M DecodedToken :=
  match token with
  | Some t =>
      match jwtDecode t with
      | Some d => ret d
      | None => throw (InvalidTokenError token)
      end
  | None => throw (InvalidTokenError None)
  end.

Definition isAuthenticated : M (option string) :=
  gets idToken.

Definition getPreferredRole : M string :=
  let* token := gets idToken in
  let* d := decode token in
  ret (if truthy (preferred_role d) then default "" (preferred_role d) else "").

Definition isRegistered : M bool :=
  let* token := gets idToken in
  if negb (truthy token) then ret false
  else
    let* role := getPreferredRole in
    ret (JsString.includes "-CognitoAdminRole-" role
         || JsString.includes "-CognitoRegisteredRole-" role).

Definition isAdmin : M value :=
  let* token := gets idToken in
  if truthy token then
    let* role := getPreferredRole in
    ret (VBool (JsString.includes "-CognitoAdminRole-" role))
  else ret (of_token token).

Definition clientSessionTimeout : Z :=
  default (60 * 60 * 1000) (configSessionTimeout cfg).

Definition origin : string :=
  protocol cfg +:+ "//" +:+ host cfg.


Definition getLogoutRedirectUrl : string :=
  origin +:+ "/index.html?action=logout".

Definition getInactiveLogoutRedirectUrl : string :=
  origin +:+ "/index.html?action=logout&reason=inactive".

Definition logoutUrl (redirectUrl : string) : string :=
  default "" (cognitoDomain cfg) +:+ "/logout?client_id=" +:+ cognitoClientId cfg
    +:+ "&logout_uri=" +:+ redirectUrl.

Definition refreshActivity : M unit :=
  let* handle := gets inactivityTimeout in
  let* reset := gets hasReset in
  if bool_decide (is_Some handle) && negb reset then
    modify (set_hasReset true) ;;
    requestAnimationFrame ;;
    clearTimeout handle ;;
    let* h := setTimeout clientSessionTimeout in
    modify (set_inactivityTimeout (Some h))
  else ret tt.

(** The callback registered by [refreshActivity], run by the browser
    before its next repaint together with every other pending one. *)
Definition animationFrame : M unit :=
  let* n := gets frames in
  match n with
  | O => ret tt
  | S _ => modify (set_frames 0) ;; modify (set_hasReset false)
  end.

Definition logoutInactive : M unit :=
  let* handle := gets inactivityTimeout in
  let* reset := gets hasReset in
  if negb (bool_decide (is_Some handle)) || reset then ret tt
  else
    modify (set_inactivityTimeout None) ;;
    let* token := gets idToken in
    if truthy token then
      resetUserData ;;
      localStorage_clear ;;
      if truthy (cognitoDomain cfg)
      then emit (Navigate (logoutUrl getInactiveLogoutRedirectUrl))
      else ret tt
    else ret tt.

(** The browser runs the timeout [h] if it is still pending. *)
Definition fire (h : positive) : M unit :=
  let* q := gets timers in
  if existsb (fun t => Pos.eqb (fst t) h) q then
    modify (fun w => set_timers (nextHandle w) (cancel (Some h) q) w) ;;
    logoutInactive
  else ret tt.

Definition new_promise : M nat :=
  let* ps := gets promises in
  modify (set_promises (ps ++ [Pending])) ;;
  ret (length ps).

(** [reject(error)] of the promise [p]; a settled promise stays as it is. *)
Definition reject (p : nat) (e : error) : M unit :=
  let* ps := gets promises in
  match ps !! p with
  | Some Pending => modify (set_promises (<[p := Rejected e]> ps))
  | _ => ret tt
  end.

Definition setCredentials : M nat :=
  let* h := setTimeout clientSessionTimeout in
  modify (set_inactivityTimeout (Some h)) ;;
  let* token := gets idToken in
  let* d := decode token in
  let preferredRole := preferred_role d in
  let params :=
    {| IdentityPoolId := cognitoIdentityPoolId cfg;
       Logins := ("cognito-idp." +:+ cognitoRegion cfg +:+ ".amazonaws.com/"
                    +:+ cognitoUserPoolId cfg,
                  default "" token);
       RoleArn := if truthy preferredRole then preferredRole else None |} in
  modify (set_credentials (Some params)) ;;
  let* p := new_promise in
  emit (CredentialsRefresh p) ;;
  ret p.

(** The callback handed to [AWS.config.credentials.refresh] by the call of
    [setCredentials] that made promise [p]. *)
Definition refreshCallback (p : nat) (err : option error) : M unit :=
  match err with
  | Some e =>
      emit (ConsoleError e) ;;
      reject p e
  | None =>
      let* creds := gets credentials in
      emit (InitApiGatewayClient creds) ;;
      emit UpdateAllUserData ;;
      emit PostSignin
  end.

Definition logout : M unit :=
  let* token := gets idToken in
  if truthy token then
    resetUserData ;;
    localStorage_clear ;;
    if truthy (cognitoDomain cfg)
    then emit (Navigate (logoutUrl getLogoutRedirectUrl))
    else ret tt
  else ret tt.

(** The [try] block of [init]: the stored token and whether it is valid. *)
Definition restore : M (option string * bool) :=
  let* stored := localStorage_getItem (cognitoUserPoolId cfg) in
  if truthy stored then
    try_catch
      (let* parsedToken := decode stored in
       let* now := gets clock in
       ret (stored,
            match exp parsedToken with
            | Some e => now <? e * 1000
            | None => false
            end))
      (fun e => emit (ConsoleError e) ;; ret (stored, false))
  else ret (stored, false).

Definition init : M unit :=
  emit (InitApiGatewayClient None) ;;
  let* r := restore in
  if snd r then
    modify (set_idToken (fst r)) ;;
    setCredentials ;;
    ret tt
  else logout.

(** The [forEach] over the [name=value] pairs of the fragment: the last
    [id_token] pair decides, also when it has no value. *)
Definition fragment_idToken (fragment : string) : option string :=
  fold_left
    (fun acc param =>
       if bool_decide (param !! 0%nat = Some "id_token") then param !! 1%nat else acc)
    (map (JsString.split "=") (JsString.split "&" (JsString.strip_hash fragment)))
    None.

(** [login()]: the executor runs at once; the state of the promise it
    leaves behind is returned with the state of the page. *)
Definition login (w : World) : promise string * World :=
  let token := fragment_idToken (hash w) in
  if truthy token then
    match (localStorage_setItem (cognitoUserPoolId cfg) (default "" token) ;;
           modify (set_idToken token) ;;
           setCredentials) w with
    | (Ret _, w') => (Resolved (default "" token), w')
    | (Throw e, w') => (Rejected e, w')
    end
  else (Pending, w).

End Controller.

Definition exec {A} (m : M A) (w : World) : World := snd (m w).

Definition eval {A} (m : M A) (w : World) : outcome A := fst (m w).

(** ** Whole-page behaviour *)

(** What can happen on a loaded page. *)
Inductive event :=
| Init
| Login
| Logout
| Activity                                    (* any of the eleven listeners *)
| Frame                                       (* animation frame *)
| Fire (h : positive)                         (* a timeout comes due *)
| RefreshDone (p : nat) (err : option error)  (* the exchange answers *)
| Tick (dt : Z)                               (* time passes *)
| HashChange (fragment : string).

Section Page.

Variable cfg : Config.
Variable jwtDecode : string -> option DecodedToken.

Definition run (ev : event) (w : World) : World :=
  match ev with
  | Init => exec (init cfg jwtDecode) w
  | Login => snd (login cfg jwtDecode w)
  | Logout => exec (logout cfg) w
  | Activity => exec (refreshActivity cfg) w
  | Frame => exec animationFrame w
  | Fire h => exec (fire cfg h) w
  | RefreshDone p err => exec (refreshCallback p err) w
  | Tick dt => set_clock (clock w + Z.max 0 dt) w
  | HashChange fragment => set_hash fragment w
  end.

Definition runs (evs : list event) (w : World) : World :=
  fold_left (fun w ev => run ev w) evs w.

Inductive reachable : World -> Prop :=
| reachable_fresh storage fragment now :
    reachable (pageLoad storage fragment now)
| reachable_run ev w :
    reachable w -> reachable (run ev w).

(** [n] activity signals with nothing in between. *)
Definition signals (n : nat) (w : World) : World :=
  Nat.iter n (exec (refreshActivity cfg)) w.

End Page.

(** The fragment carries a pair named [id_token]. *)
Definition has_id_token (fragment : string) : bool :=
  existsb (fun param => bool_decide (param !! 0%nat = Some "id_token"))
    (map (JsString.split "=") (JsString.split "&" (JsString.strip_hash fragment))).

Definition is_navigate (e : effect) : bool :=
  match e with Navigate _ => true | _ => false end.

Definition is_exchange (e : effect) : bool :=
  match e with CredentialsRefresh _ => true | _ => false end.

Definition is_reschedule (e : effect) : bool :=
  match e with SetTimeout _ _ => true | _ => false end.

Definition is_cancel (e : effect) : bool :=
  match e with ClearTimeout _ => true | _ => false end.

(** Number of effects of a kind. *)
Definition count (kind : effect -> bool) (es : list effect) : nat :=
  length (List.filter kind es).

(** The session is authenticated: [isAuthenticated()] is truthy. *)
Definition authenticated (w : World) : bool := truthy (idToken w).

(** A deadline is pending. *)
Definition pending (w : World) : bool :=
  match timers w with
  | [] => false
  | _ :: _ => true
  end.

(** An authenticated session has a deadline handle recorded. *)
Definition handle_recorded (w : World) : Prop :=
  authenticated w = true -> is_Some (inactivityTimeout w).

(** The state [logout()] leaves when a token was set. *)
Definition cleared (cfg : Config) (w : World) : World :=
  let w1 := set_localStorage ∅ (set_idToken None w) in
  if truthy (cognitoDomain cfg)
  then set_effects (effects w1 ++ [Navigate (logoutUrl cfg (getLogoutRedirectUrl cfg))]) w1
  else w1.

(** ** A concrete portal, for running the model *)

Module Demo.

Definition cfg : Config :=
  {| cognitoDomain := Some "https://auth.example.com";
     cognitoClientId := "client1";
     cognitoUserPoolId := "us-east-1_pool";
     cognitoIdentityPoolId := "us-east-1:ident";
     cognitoRegion := "us-east-1";
     configSessionTimeout := None;
     protocol := "https:";
     host := "portal.example.com" |}.

(** Four tokens: an administrator and a registered user whose tokens
    expire in 2033, a token without role, and one that expired at epoch
    second 1; everything else does not decode. *)
Definition jwtDecode (token : string) : option DecodedToken :=
  if String.eqb token "ABC" then
    Some {| exp := Some 2000000000;
            preferred_role := Some "arn:aws:iam::1:role/portal-CognitoAdminRole-X1" |}
  else if String.eqb token "REG" then
    Some {| exp := Some 2000000000;
            preferred_role := Some "arn:aws:iam::1:role/portal-CognitoRegisteredRole-X2" |}
  else if String.eqb token "NOROLE" then
    Some {| exp := Some 2000000000; preferred_role := None |}
  else if String.eqb token "OLD" then
    Some {| exp := Some 1; preferred_role := None |}
  else None.

Definition pool : string := cognitoUserPoolId cfg.

(** 2026-01-01, in milliseconds. *)
Definition now : Z := 1767225600000.

(** A page loaded with a valid stored token, after [init]. *)
Definition restored : World :=
  run cfg jwtDecode Init (pageLoad {[ pool := "ABC" ]} "" now).

(** The return page of the hosted login, after [login]. *)
Definition loggedIn : World :=
  run cfg jwtDecode Login (pageLoad ∅ "#id_token=ABC&other=x" now).

End Demo.

(** ** The navigation bar (components/NavBar) *)

(** The entries of the right-hand menu. *)
Inductive menu_item :=
| AdminPanel                                  (* <Menu.Item as={Link} to="/admin"> *)
| MyDashboard                                 (* <Menu.Item as={Link} to="/dashboard"> *)
| SignOut                                     (* <Menu.Item as="a" onClick={logout}> *)
| SignIn (href : string)                      (* <Menu.Item as="a" href={...}> *)
| RegisterItem.                               (* <Register /> *)

(** A template literal prints an absent constant as [undefined]. *)
Definition interpolate (v : option string) : string :=
  default "undefined" v.

Section NavBar.

Variable cfg : Config.
Variable jwtDecode : string -> option DecodedToken.

Definition getCognitoUrl (type : string) : string :=
  let redirectUri := protocol cfg +:+ "//" +:+ host cfg +:+ "/login" in
  interpolate (cognitoDomain cfg) +:+ "/" +:+ type
    +:+ "?response_type=token&client_id=" +:+ cognitoClientId cfg
    +:+ "&redirect_uri=" +:+ redirectUri.

(** [insertAuthMenu()]: [{isAdmin() && <Menu.Item ...>}] renders the entry
    only for a truthy [isAdmin()]. *)
Definition insertAuthMenu : M (list menu_item) :=
  let* token := isAuthenticated in
  if truthy token then
    let* admin := isAdmin jwtDecode in
    ret ((if to_boolean admin then [AdminPanel] else []) ++ [MyDashboard; SignOut])%list
  else ret [SignIn (getCognitoUrl "login"); RegisterItem].

End NavBar.

(** The deadline [h] is pending. *)
Definition is_pending (h : positive) (w : World) : bool :=
  existsb (fun t => Pos.eqb (fst t) h) (timers w).

(** No promise of the page has been fulfilled. *)
Definition none_resolved (w : World) : Prop :=
  forall (i : nat) (v : unit), promises w !! i <> Some (Resolved v).

(** While authenticated, the stored token is the session token. *)
Definition token_persisted (cfg : Config) (w : World) : Prop :=
  authenticated w = true -> localStorage w !! cognitoUserPoolId cfg = idToken w.

(** ** More pages of the concrete portal *)

Module Pages.

(** The return page of the hosted login with a token that does not decode. *)
Definition malformed : World :=
  run Demo.cfg Demo.jwtDecode Login (pageLoad ∅ "#id_token=garbage" Demo.now).

(** A registered user restored by [init()]. *)
Definition registered : World :=
  run Demo.cfg Demo.jwtDecode Init (pageLoad {[ Demo.pool := "REG" ]} "" Demo.now).

(** A page that nobody is signed in to. *)
Definition anonymous : World :=
  run Demo.cfg Demo.jwtDecode Init (pageLoad ∅ "" Demo.now).

(** [init()] restored a session and [login()] replaced it on the same page. *)
Definition relogged : World :=
  runs Demo.cfg Demo.jwtDecode [Init; HashChange "#id_token=REG"; Login]
    (pageLoad {[ Demo.pool := "ABC" ]} "" Demo.now).

End Pages.

(** ** A portal without hosted logout, and padded tokens *)

Module Local.

(** No identity-provider domain is configured: [logout()] does not leave
    the page. *)
Definition cfg : Config :=
  {| cognitoDomain := None;
     cognitoClientId := cognitoClientId Demo.cfg;
     cognitoUserPoolId := cognitoUserPoolId Demo.cfg;
     cognitoIdentityPoolId := cognitoIdentityPoolId Demo.cfg;
     cognitoRegion := cognitoRegion Demo.cfg;
     configSessionTimeout := None;
     protocol := "http:";
     host := "localhost:3000" |}.

(** A token whose middle part carries base64 padding. *)
Definition padded : string := "h.cGF5bG9hZA==.s".

(** A decoder that accepts the padded token, and nothing shorter. *)
Definition jwtDecode (token : string) : option DecodedToken :=
  if String.eqb token padded
  then Some {| exp := Some 2000000000; preferred_role := None |}
  else None.

(** [init()] restores a session, the user signs out and signs in again on
    the same page. *)
Definition resigned : World :=
  runs cfg Demo.jwtDecode [Init; Logout; HashChange "#id_token=REG"; Login]
    (pageLoad {[ Demo.pool := "ABC" ]} "" Demo.now).

End Local.

(** * Properties *)

Example split_two : JsString.split "&" "id_token=ABC&other=x" = ["id_token=ABC"; "other=x"].
Proof. reflexivity. Qed.

Example split_empty : JsString.split "&" "" = [""].
Proof. reflexivity. Qed.

Example split_trailing : JsString.split "=" "a=b=" = ["a"; "b"; ""].
Proof. reflexivity. Qed.

Example includes_marker :
  JsString.includes "-CognitoAdminRole-" "arn:aws:iam::1:role/x-CognitoAdminRole-9" = true.
Proof. reflexivity. Qed.

Example demo_restored :
  idToken Demo.restored = Some "ABC"
  /\ timers Demo.restored = [(1%positive, Demo.now + 3600000)]
  /\ inactivityTimeout Demo.restored = Some 1%positive
  /\ effects Demo.restored
     = [InitApiGatewayClient None; SetTimeout 1 3600000; CredentialsRefresh 0].
Proof. vm_compute. repeat split. Qed.

Example demo_loggedIn :
  login Demo.cfg Demo.jwtDecode (pageLoad ∅ "#id_token=ABC&other=x" Demo.now)
  = (Resolved "ABC", Demo.loggedIn).
Proof. vm_compute. reflexivity. Qed.

(** ** Facts about the string primitives *)

Section StringFacts.

Lemma prefix_app (needle hay : string) :
  String.prefix needle hay = true <-> exists post, hay = needle +:+ post.
Proof.
  revert hay. induction needle as [|c needle IH]; intros hay; simpl.
  - split; [intros _; exists hay; reflexivity | destruct hay; reflexivity].
  - destruct hay as [|d hay].
    + split; [discriminate | intros [post H]; discriminate].
    + simpl. destruct (ascii_dec c d) as [->|Hne].
      * rewrite IH. split; intros [post H]; exists post.
        -- now rewrite H.
        -- now inversion H.
      * split; [discriminate | intros [post H]; simpl in H; congruence].
Qed.

Lemma includes_app (needle hay : string) :
  JsString.includes needle hay = true
  <-> exists pre post, hay = pre +:+ needle +:+ post.
Proof.
  induction hay as [|d hay IH].
  - destruct needle as [|c needle]; simpl.
    + split; [intros _; now exists "", "" | reflexivity].
    + split; [discriminate | intros [[|e pre] [post H]]; discriminate].
  - cbn [JsString.includes]. rewrite orb_true_iff, prefix_app, IH. split.
    + intros [[post H] | [pre [post H]]].
      * exists "", post. exact H.
      * exists (String d pre), post. simpl. now rewrite H.
    + intros [pre [post H]]. destruct pre as [|c pre].
      * left. now exists post.
      * right. exists pre, post. simpl in H. now inversion H.
Qed.

Lemma includes_empty (needle : string) :
  needle <> "" -> JsString.includes needle "" = false.
Proof. destruct needle; [congruence | reflexivity]. Qed.

Lemma split_cons (sep : ascii) (s : string) :
  exists piece rest, JsString.split sep s = piece :: rest.
Proof.
  induction s as [|c s [piece [rest IH]]]; simpl; [eauto |].
  destruct (Ascii.eqb c sep); [eauto |]. rewrite IH. eauto.
Qed.

(** A string without the separator is one piece. *)
Lemma split_none (sep : ascii) (s : string) :
  JsString.mem sep s = false -> JsString.split sep s = [s].
Proof.
  induction s as [|c s IH]; simpl; [reflexivity |].
  rewrite orb_false_iff. intros [Hc Hs]. rewrite Hc, (IH Hs). reflexivity.
Qed.

(** The first piece ends at the first separator. *)
Lemma split_app (sep : ascii) (s t : string) :
  JsString.mem sep s = false ->
  JsString.split sep (s +:+ String sep t) = s :: JsString.split sep t.
Proof.
  induction s as [|c s IH]; simpl.
  - intros _. now rewrite Ascii.eqb_refl.
  - rewrite orb_false_iff. intros [Hc Hs]. rewrite Hc, (IH Hs). reflexivity.
Qed.

Lemma mem_app (c : ascii) (s t : string) :
  JsString.mem c (s +:+ t) = JsString.mem c s || JsString.mem c t.
Proof.
  induction s as [|d s IH]; simpl; [reflexivity |].
  now rewrite IH, orb_assoc.
Qed.

Lemma truthy_Some (s : string) : s <> "" -> truthy (Some s) = true.
Proof.
  intros H. simpl. destruct (String.eqb_spec s ""); [contradiction | reflexivity].
Qed.

Lemma truthy_is_Some (v : option string) :
  truthy v = true -> exists s, v = Some s /\ s <> "".
Proof.
  destruct v as [s|]; simpl; [| discriminate].
  destruct (String.eqb_spec s ""); [discriminate |]. eauto.
Qed.

End StringFacts.

(** ** Stepping through a statement sequence *)

Section Stepping.

Context {A B : Type}.

Lemma bind_gets (f : World -> A) (k : A -> M B) (w : World) :
  bind (gets f) k w = k (f w) w.
Proof. reflexivity. Qed.

Lemma bind_modify (f : World -> World) (k : unit -> M B) (w : World) :
  bind (modify f) k w = k tt (f w).
Proof. reflexivity. Qed.

Lemma bind_ret (a : A) (k : A -> M B) (w : World) :
  bind (ret a) k w = k a w.
Proof. reflexivity. Qed.

Lemma bind_Ret (m : M A) (k : A -> M B) (w w' : World) (a : A) :
  m w = (Ret a, w') -> bind m k w = k a w'.
Proof. intros H. unfold bind. now rewrite H. Qed.

Lemma bind_Throw (m : M A) (k : A -> M B) (w w' : World) (e : error) :
  m w = (Throw e, w') -> bind m k w = (Throw e, w').
Proof. intros H. unfold bind. now rewrite H. Qed.

End Stepping.

(** ** Role predicates *)

Section Roles.

Variable jwtDecode : string -> option DecodedToken.

Lemma getPreferredRole_decoded (w : World) (token : string) (d : DecodedToken) :
  idToken w = Some token ->
  jwtDecode token = Some d ->
  getPreferredRole jwtDecode w = (Ret (default "" (preferred_role d)), w).
Proof.
  intros Htok Hdec. unfold getPreferredRole, bind, gets, decode.
  rewrite Htok, Hdec. unfold ret. f_equal. f_equal.
  destruct (preferred_role d) as [r|]; simpl; [| reflexivity].
  destruct (String.eqb_spec r ""); simpl; congruence.
Qed.

Lemma isAdmin_decoded (w : World) (token : string) (d : DecodedToken) :
  idToken w = Some token -> token <> "" ->
  jwtDecode token = Some d ->
  isAdmin jwtDecode w
  = (Ret (VBool (JsString.includes "-CognitoAdminRole-" (default "" (preferred_role d)))), w).
Proof.
  intros Htok Hne Hdec. unfold isAdmin.
  rewrite bind_gets, Htok, (truthy_Some _ Hne).
  now rewrite (bind_Ret _ _ _ _ _ (getPreferredRole_decoded w token d Htok Hdec)).
Qed.

Lemma isRegistered_decoded (w : World) (token : string) (d : DecodedToken) :
  idToken w = Some token -> token <> "" ->
  jwtDecode token = Some d ->
  isRegistered jwtDecode w
  = (Ret (JsString.includes "-CognitoAdminRole-" (default "" (preferred_role d))
          || JsString.includes "-CognitoRegisteredRole-" (default "" (preferred_role d))), w).
Proof.
  intros Htok Hne Hdec. unfold isRegistered.
  rewrite bind_gets, Htok, (truthy_Some _ Hne). cbn [negb].
  now rewrite (bind_Ret _ _ _ _ _ (getPreferredRole_decoded w token d Htok Hdec)).
Qed.

(** C6: in an authenticated session whose token decodes, [isAdmin()] is a
    boolean that is true exactly when the preferred-role string contains
    [-CognitoAdminRole-]; with an absent or empty role claim both role
    predicates, [isAdmin()] and [isRegistered()], are false. *)
Theorem isAdmin_iff_marker (w : World) (token : string) (d : DecodedToken) :
  idToken w = Some token -> token <> "" ->
  jwtDecode token = Some d ->
  exists b : bool,
    isAdmin jwtDecode w = (Ret (VBool b), w)
    /\ (b = true <->
        exists pre post,
          default "" (preferred_role d) = pre +:+ "-CognitoAdminRole-" +:+ post)
    /\ (default "" (preferred_role d) = "" ->
        b = false /\ isRegistered jwtDecode w = (Ret false, w)).
Proof.
  intros Htok Hne Hdec.
  exists (JsString.includes "-CognitoAdminRole-" (default "" (preferred_role d))).
  split; [exact (isAdmin_decoded w token d Htok Hne Hdec) | split].
  - apply includes_app.
  - intros Hrole. rewrite (isRegistered_decoded w token d Htok Hne Hdec), Hrole.
    split; reflexivity.
Qed.

(** C10: in an authenticated session whose preferred-role claim contains
    [-CognitoAdminRole-], [isAdmin()] and [isRegistered()] are both true:
    the registered predicate accepts either marker. *)
Theorem isAdmin_implies_isRegistered
    (w : World) (token : string) (d : DecodedToken) (role pre post : string) :
  idToken w = Some token -> token <> "" ->
  jwtDecode token = Some d ->
  preferred_role d = Some role ->
  role = pre +:+ "-CognitoAdminRole-" +:+ post ->
  isAdmin jwtDecode w = (Ret (VBool true), w)
  /\ isRegistered jwtDecode w = (Ret true, w).
Proof.
  intros Htok Hne Hdec Hrole Hsub.
  assert (Hinc : JsString.includes "-CognitoAdminRole-" (default "" (preferred_role d)) = true).
  { rewrite Hrole. apply includes_app. now exists pre, post. }
  rewrite (isAdmin_decoded w token d Htok Hne Hdec).
  rewrite (isRegistered_decoded w token d Htok Hne Hdec).
  now rewrite Hinc.
Qed.

(** Whatever the token, [isRegistered()] holds whenever [isAdmin()]
    returns a truthy value. *)
Lemma isAdmin_truthy_isRegistered (w : World) (v : value) :
  eval (isAdmin jwtDecode) w = Ret v -> to_boolean v = true ->
  eval (isRegistered jwtDecode) w = Ret true.
Proof.
  unfold eval, isAdmin, isRegistered. rewrite !bind_gets.
  destruct (truthy (idToken w)) eqn:Htruthy; cbn [negb].
  - unfold bind. destruct (getPreferredRole jwtDecode w) as [[role|e] w']; simpl.
    + intros [= <-]. simpl. now intros ->.
    + discriminate.
  - intros [= <-]. destruct (idToken w) as [s|]; simpl in *; [| discriminate].
    now rewrite Htruthy.
Qed.

End Roles.

Lemma isAdmin_iff_marker_witness :
  idToken Demo.restored = Some "ABC" /\ "ABC" <> ""
  /\ Demo.jwtDecode "ABC"
     = Some {| exp := Some 2000000000;
               preferred_role := Some "arn:aws:iam::1:role/portal-CognitoAdminRole-X1" |}
  /\ exists b : bool,
      isAdmin Demo.jwtDecode Demo.restored = (Ret (VBool b), Demo.restored)
      /\ (b = true <->
          exists pre post,
            "arn:aws:iam::1:role/portal-CognitoAdminRole-X1"
            = pre +:+ "-CognitoAdminRole-" +:+ post)
      /\ ("arn:aws:iam::1:role/portal-CognitoAdminRole-X1" = "" ->
          b = false /\ isRegistered Demo.jwtDecode Demo.restored = (Ret false, Demo.restored)).
Proof.
  assert (Hne : "ABC" <> "") by discriminate.
  repeat split; try reflexivity; try exact Hne.
  exact (isAdmin_iff_marker Demo.jwtDecode Demo.restored "ABC" _ eq_refl Hne eq_refl).
Defined.

Lemma isAdmin_implies_isRegistered_witness :
  idToken Demo.restored = Some "ABC" /\ "ABC" <> ""
  /\ "arn:aws:iam::1:role/portal-CognitoAdminRole-X1"
     = "arn:aws:iam::1:role/portal" +:+ "-CognitoAdminRole-" +:+ "X1"
  /\ isAdmin Demo.jwtDecode Demo.restored = (Ret (VBool true), Demo.restored)
  /\ isRegistered Demo.jwtDecode Demo.restored = (Ret true, Demo.restored).
Proof.
  assert (Hne : "ABC" <> "") by discriminate.
  split; [reflexivity | split; [exact Hne | split; [reflexivity |]]].
  exact (isAdmin_implies_isRegistered Demo.jwtDecode Demo.restored "ABC" _ _
           "arn:aws:iam::1:role/portal" "X1" eq_refl Hne eq_refl eq_refl eq_refl).
Defined.

(** The role predicates on the concrete portal: a token without role
    claim, a registered user, and no session at all. *)
Example roles_demo :
  let norole := run Demo.cfg Demo.jwtDecode Init
                  (pageLoad {[ Demo.pool := "NOROLE" ]} "" Demo.now) in
  let reg := run Demo.cfg Demo.jwtDecode Init
               (pageLoad {[ Demo.pool := "REG" ]} "" Demo.now) in
  let nobody := pageLoad ∅ "" Demo.now in
  eval (isAdmin Demo.jwtDecode) norole = Ret (VBool false)
  /\ eval (isRegistered Demo.jwtDecode) norole = Ret false
  /\ eval (isAdmin Demo.jwtDecode) reg = Ret (VBool false)
  /\ eval (isRegistered Demo.jwtDecode) reg = Ret true
  /\ eval (isAdmin Demo.jwtDecode) nobody = Ret VAbsent
  /\ eval (isRegistered Demo.jwtDecode) nobody = Ret false.
Proof. vm_compute. repeat split. Qed.

(** ** Counting effects *)

Lemma count_app (kind : effect -> bool) (es fs : list effect) :
  count kind (es ++ fs) = (count kind es + count kind fs)%nat.
Proof. unfold count. now rewrite List.filter_app, length_app. Qed.

(** ** Logout *)

Section LogoutFacts.

Variable cfg : Config.

Lemma logout_spec (w : World) :
  logout cfg w = (Ret tt, if authenticated w then cleared cfg w else w).
Proof.
  unfold logout, authenticated, cleared. rewrite bind_gets.
  destruct (truthy (idToken w)); [| reflexivity].
  destruct (truthy (cognitoDomain cfg)); reflexivity.
Qed.

Lemma cleared_unauthenticated (w : World) : authenticated (cleared cfg w) = false.
Proof. unfold cleared. now destruct (truthy (cognitoDomain cfg)). Qed.

Lemma logout_unauthenticated (w : World) :
  authenticated (exec (logout cfg) w) = false.
Proof.
  unfold exec. rewrite logout_spec. simpl.
  destruct (authenticated w) eqn:Hauth; [apply cleared_unauthenticated | exact Hauth].
Qed.

Lemma cleared_navigations (w : World) :
  (count is_navigate (effects (cleared cfg w)) <= count is_navigate (effects w) + 1)%nat.
Proof.
  unfold cleared. destruct (truthy (cognitoDomain cfg)); simpl.
  - rewrite count_app. unfold count. cbn [List.filter is_navigate length]. lia.
  - lia.
Qed.

(** C9: [logout()] never throws and is idempotent from every state: a
    second call changes nothing, the two calls together navigate at most
    once, and a call with no token set changes nothing at all, while a
    call with a token set clears token and storage. *)
Theorem logout_idempotent (w : World) :
  eval (logout cfg) w = Ret tt
  /\ logout cfg (exec (logout cfg) w) = (Ret tt, exec (logout cfg) w)
  /\ authenticated (exec (logout cfg) w) = false
  /\ (count is_navigate (effects (exec (logout cfg) (exec (logout cfg) w)))
      <= count is_navigate (effects w) + 1)%nat
  /\ (if authenticated w
      then idToken (exec (logout cfg) w) = None
           /\ localStorage (exec (logout cfg) w) = ∅
      else exec (logout cfg) w = w).
Proof.
  assert (Hsecond : logout cfg (exec (logout cfg) w) = (Ret tt, exec (logout cfg) w)).
  { rewrite logout_spec. now rewrite logout_unauthenticated. }
  split; [unfold eval; now rewrite logout_spec |].
  split; [exact Hsecond |].
  split; [apply logout_unauthenticated |].
  split.
  - unfold exec at 1. rewrite Hsecond. simpl.
    unfold exec. rewrite logout_spec. simpl.
    destruct (authenticated w); [apply cleared_navigations | lia].
  - unfold exec. rewrite logout_spec. simpl.
    destruct (authenticated w); [| reflexivity].
    unfold cleared. now destruct (truthy (cognitoDomain cfg)).
Qed.

End LogoutFacts.

Example logout_twice_demo :
  let once := run Demo.cfg Demo.jwtDecode Logout Demo.restored in
  run Demo.cfg Demo.jwtDecode Logout once = once
  /\ idToken once = None
  /\ localStorage once = ∅
  /\ List.filter is_navigate (effects once)
     = [Navigate ("https://auth.example.com/logout?client_id=client1&logout_uri="
                  +:+ "https://portal.example.com/index.html?action=logout")].
Proof. vm_compute. repeat split. Qed.

(** ** Credentials and restoration *)

Section InitFacts.

Variable cfg : Config.
Variable jwtDecode : string -> option DecodedToken.

(** With a token that decodes, [setCredentials()] returns its new promise,
    still pending, after arming a deadline and issuing one exchange. *)
Lemma setCredentials_ok (w : World) (token : string) (d : DecodedToken) :
  idToken w = Some token ->
  jwtDecode token = Some d ->
  let w' := exec (setCredentials cfg jwtDecode) w in
  setCredentials cfg jwtDecode w = (Ret (length (promises w)), w')
  /\ idToken w' = Some token
  /\ localStorage w' = localStorage w
  /\ hasReset w' = hasReset w
  /\ inactivityTimeout w' = Some (nextHandle w)
  /\ timers w' = (timers w ++ [(nextHandle w, clock w + clientSessionTimeout cfg)])%list
  /\ promises w' = (promises w ++ [Pending])%list
  /\ effects w'
     = (effects w ++ [SetTimeout (nextHandle w) (clientSessionTimeout cfg);
                      CredentialsRefresh (length (promises w))])%list.
Proof.
  intros Htok Hdec.
  unfold exec, setCredentials, setTimeout, new_promise, emit, decode.
  cbv [bind gets modify ret throw]. simpl. rewrite Htok, Hdec. simpl.
  rewrite <- app_assoc. repeat split; assumption.
Qed.

(** With a token that does not decode, [setCredentials()] throws after the
    deadline is armed and before any exchange. *)
Lemma setCredentials_throws (w : World) (token : string) :
  idToken w = Some token ->
  jwtDecode token = None ->
  let w' := exec (setCredentials cfg jwtDecode) w in
  setCredentials cfg jwtDecode w = (Throw (InvalidTokenError (Some token)), w')
  /\ idToken w' = Some token
  /\ inactivityTimeout w' = Some (nextHandle w)
  /\ effects w' = (effects w ++ [SetTimeout (nextHandle w) (clientSessionTimeout cfg)])%list.
Proof.
  intros Htok Hdec.
  unfold exec, setCredentials, setTimeout, new_promise, emit, decode.
  cbv [bind gets modify ret throw]. simpl. rewrite Htok, Hdec. simpl.
  repeat split; assumption.
Qed.

(** The [try] block of [init()] never throws; it logs when the stored token
    does not decode and changes nothing else. *)
Lemma restore_spec (w : World) :
  restore cfg jwtDecode w
  = match localStorage w !! cognitoUserPoolId cfg with
    | Some token =>
        if truthy (Some token) then
          match jwtDecode token with
          | Some d =>
              (Ret (Some token,
                    match exp d with
                    | Some e => clock w <? e * 1000
                    | None => false
                    end), w)
          | None =>
              (Ret (Some token, false),
               set_effects (effects w ++ [ConsoleError (InvalidTokenError (Some token))]) w)
          end
        else (Ret (Some token, false), w)
    | None => (Ret (None, false), w)
    end.
Proof.
  unfold restore, localStorage_getItem. rewrite bind_gets.
  destruct (localStorage w !! cognitoUserPoolId cfg) as [token|]; [| reflexivity].
  destruct (truthy (Some token)); [| reflexivity].
  unfold try_catch, decode, bind, emit, modify, throw, ret, gets.
  destruct (jwtDecode token) as [d|]; reflexivity.
Qed.

End InitFacts.

Section Restoration.

Variable cfg : Config.
Variable jwtDecode : string -> option DecodedToken.

Lemma init_unfold (w : World) :
  init cfg jwtDecode w
  = match restore cfg jwtDecode (set_effects (effects w ++ [InitApiGatewayClient None]) w) with
    | (Ret (stored, true), w1) =>
        match setCredentials cfg jwtDecode (set_idToken stored w1) with
        | (Ret _, w2) => (Ret tt, w2)
        | (Throw e, w2) => (Throw e, w2)
        end
    | (Ret (stored, false), w1) => logout cfg w1
    | (Throw e, w1) => (Throw e, w1)
    end.
Proof.
  unfold init, emit. rewrite bind_modify. unfold bind at 1.
  destruct (restore cfg jwtDecode _) as [[[stored [|]]|e] w1]; reflexivity.
Qed.

Lemma logout_exchanges (w : World) :
  count is_exchange (effects (exec (logout cfg) w)) = count is_exchange (effects w).
Proof.
  unfold exec. rewrite logout_spec. simpl.
  destruct (authenticated w); [| reflexivity].
  unfold cleared. destruct (truthy (cognitoDomain cfg)); simpl; [| reflexivity].
  rewrite count_app. unfold count at 2. cbn [List.filter is_exchange length]. lia.
Qed.

(** C7: whenever the stored token does not decode, or decodes with an
    expiry that is not in the future (or with none), [init()] returns
    without throwing, leaves the session unauthenticated and issues no
    credentials exchange. *)
Theorem init_degrades (w : World) (token : string) :
  localStorage w !! cognitoUserPoolId cfg = Some token ->
  (jwtDecode token = None
   \/ exists d, jwtDecode token = Some d
                /\ forall e, exp d = Some e -> e * 1000 <= clock w) ->
  eval (init cfg jwtDecode) w = Ret tt
  /\ authenticated (exec (init cfg jwtDecode) w) = false
  /\ count is_exchange (effects (exec (init cfg jwtDecode) w))
     = count is_exchange (effects w).
Proof.
  intros Hstored Hbad.
  assert (Hres : exists w1,
             restore cfg jwtDecode (set_effects (effects w ++ [InitApiGatewayClient None]) w)
             = (Ret (Some token, false), w1)
             /\ count is_exchange (effects w1) = count is_exchange (effects w)).
  { rewrite restore_spec. simpl localStorage. rewrite Hstored.
    simpl clock. simpl effects.
    assert (Hinit : count is_exchange (effects w ++ [InitApiGatewayClient None])
                    = count is_exchange (effects w)).
    { rewrite count_app. unfold count at 2. simpl. lia. }
    destruct (truthy (Some token)); [| eexists; split; [reflexivity | exact Hinit]].
    destruct Hbad as [Hnone | [d [Hd Hexp]]].
    - rewrite Hnone. eexists. split; [reflexivity |]. simpl effects.
      rewrite count_app, Hinit. unfold count at 2. simpl. lia.
    - rewrite Hd. destruct (exp d) as [e|] eqn:He.
      + assert (Hlt : (clock w <? e * 1000) = false)
          by (apply Z.ltb_ge, Hexp; reflexivity).
        rewrite Hlt. eexists. split; [reflexivity | exact Hinit].
      + eexists. split; [reflexivity | exact Hinit]. }
  destruct Hres as [w1 [Hres Hcount]].
  unfold eval, exec. rewrite init_unfold, Hres.
  pose proof (logout_spec cfg w1) as Hout.
  split; [now rewrite Hout |].
  split; [apply (logout_unauthenticated cfg w1) |].
  rewrite <- Hcount. apply logout_exchanges.
Qed.

(** C5: a stored token that decodes with expiry [e] (epoch seconds) is
    treated as expired by [init()] exactly when [e * 1000 <= now]: the
    validity flag of the restoration is the negation of that test, and the
    session ends unauthenticated exactly in that case. *)
Theorem init_expired_iff (w : World) (token : string) (d : DecodedToken) (e : Z) :
  localStorage w !! cognitoUserPoolId cfg = Some token -> token <> "" ->
  jwtDecode token = Some d ->
  exp d = Some e ->
  eval (restore cfg jwtDecode) w = Ret (Some token, negb (e * 1000 <=? clock w))
  /\ (authenticated (exec (init cfg jwtDecode) w) = false <-> e * 1000 <= clock w).
Proof.
  intros Hstored Hne Hdec Hexp.
  assert (Hflag : (clock w <? e * 1000) = negb (e * 1000 <=? clock w)).
  { destruct (Z.leb_spec (e * 1000) (clock w)); simpl; lia. }
  split.
  { unfold eval. rewrite restore_spec, Hstored, (truthy_Some _ Hne), Hdec, Hexp.
    simpl. now rewrite Hflag. }
  assert (Hres : restore cfg jwtDecode (set_effects (effects w ++ [InitApiGatewayClient None]) w)
                 = (Ret (Some token, negb (e * 1000 <=? clock w)),
                    set_effects (effects w ++ [InitApiGatewayClient None]) w)).
  { rewrite restore_spec. simpl localStorage. simpl clock.
    now rewrite Hstored, (truthy_Some _ Hne), Hdec, Hexp, Hflag. }
  unfold exec. rewrite init_unfold, Hres.
  destruct (Z.leb_spec (e * 1000) (clock w)) as [Hle | Hgt]; simpl negb; cbv iota.
  - split; [intros _; exact Hle | intros _].
    apply (logout_unauthenticated cfg).
  - split; [| lia]. intros Hunauth. exfalso.
    set (w1 := set_idToken (Some token) _) in *.
    destruct (setCredentials_ok cfg jwtDecode w1 token d eq_refl Hdec)
      as [Hrun [Htok _]].
    rewrite Hrun in Hunauth. simpl in Hunauth.
    unfold authenticated in Hunauth. rewrite Htok, (truthy_Some _ Hne) in Hunauth.
    discriminate.
Qed.

End Restoration.

Lemma init_degrades_witness :
  let w := pageLoad {[ Demo.pool := "OLD" ]} "" Demo.now in
  localStorage w !! cognitoUserPoolId Demo.cfg = Some "OLD"
  /\ (Demo.jwtDecode "OLD" = None
      \/ exists d, Demo.jwtDecode "OLD" = Some d
                   /\ forall e, exp d = Some e -> e * 1000 <= clock w)
  /\ eval (init Demo.cfg Demo.jwtDecode) w = Ret tt
  /\ authenticated (exec (init Demo.cfg Demo.jwtDecode) w) = false
  /\ count is_exchange (effects (exec (init Demo.cfg Demo.jwtDecode) w))
     = count is_exchange (effects w).
Proof.
  intros w.
  assert (Hstored : localStorage w !! cognitoUserPoolId Demo.cfg = Some "OLD")
    by (vm_compute; reflexivity).
  assert (Hbad : Demo.jwtDecode "OLD" = None
                 \/ exists d, Demo.jwtDecode "OLD" = Some d
                              /\ forall e, exp d = Some e -> e * 1000 <= clock w).
  { right. exists {| exp := Some 1; preferred_role := None |}.
    split; [reflexivity |]. intros e [= <-]. vm_compute. discriminate. }
  split; [exact Hstored | split; [exact Hbad |]].
  exact (init_degrades Demo.cfg Demo.jwtDecode w "OLD" Hstored Hbad).
Defined.

Lemma init_expired_iff_witness :
  let w := pageLoad {[ Demo.pool := "ABC" ]} "" 2000000000000 in
  localStorage w !! cognitoUserPoolId Demo.cfg = Some "ABC" /\ "ABC" <> ""
  /\ eval (restore Demo.cfg Demo.jwtDecode) w
     = Ret (Some "ABC", negb (2000000000 * 1000 <=? clock w))
  /\ (authenticated (exec (init Demo.cfg Demo.jwtDecode) w) = false
      <-> 2000000000 * 1000 <= clock w).
Proof.
  intros w.
  assert (Hstored : localStorage w !! cognitoUserPoolId Demo.cfg = Some "ABC")
    by (vm_compute; reflexivity).
  assert (Hne : "ABC" <> "") by discriminate.
  split; [exact Hstored | split; [exact Hne |]].
  exact (init_expired_iff Demo.cfg Demo.jwtDecode w "ABC" _ 2000000000
           Hstored Hne eq_refl eq_refl).
Defined.

(** The boundary of C5 on the concrete portal: at the very millisecond of
    expiry the stored token is refused, one millisecond earlier it is
    accepted. *)
Example init_boundary_demo :
  authenticated
    (run Demo.cfg Demo.jwtDecode Init (pageLoad {[ Demo.pool := "ABC" ]} "" 2000000000000))
  = false
  /\ authenticated
       (run Demo.cfg Demo.jwtDecode Init (pageLoad {[ Demo.pool := "ABC" ]} "" 1999999999999))
     = true.
Proof. vm_compute. split; reflexivity. Qed.

(** The scenario of C7: a token that expired at epoch second 1. *)
Example init_epoch_one_demo :
  init Demo.cfg Demo.jwtDecode (pageLoad {[ Demo.pool := "OLD" ]} "" Demo.now)
  = (Ret tt,
     set_effects [InitApiGatewayClient None] (pageLoad {[ Demo.pool := "OLD" ]} "" Demo.now)).
Proof. vm_compute. reflexivity. Qed.

(** ** Login *)

Section FragmentFacts.

Lemma append_assoc (s t u : string) : (s +:+ t) +:+ u = s +:+ t +:+ u.
Proof. induction s as [|c s IH]; simpl; [reflexivity | now rewrite IH]. Qed.

(** Pairs with another name leave the token found so far alone. *)
Lemma forEach_no_token (params : list (list string)) (acc : option string) :
  existsb (fun param => bool_decide (param !! 0%nat = Some "id_token")) params = false ->
  fold_left
    (fun acc param =>
       if bool_decide (param !! 0%nat = Some "id_token") then param !! 1%nat else acc)
    params acc
  = acc.
Proof.
  revert acc. induction params as [|param params IH]; intros acc; simpl; [reflexivity |].
  rewrite orb_false_iff. intros [Hparam Hrest]. rewrite Hparam. now apply IH.
Qed.

Lemma fragment_without_token (fragment : string) :
  has_id_token fragment = false -> fragment_idToken fragment = None.
Proof. apply forEach_no_token. Qed.

(** The fragment of the hosted login's return page. *)
Lemma fragment_with_token (token : string) :
  JsString.mem "&" token = false ->
  JsString.mem "=" token = false ->
  fragment_idToken ("#id_token=" +:+ token +:+ "&other=x") = Some token.
Proof.
  intros Hamp Heq. unfold fragment_idToken.
  change (JsString.strip_hash ("#id_token=" +:+ token +:+ "&other=x"))
    with ("id_token=" +:+ token +:+ String "&" "other=x").
  rewrite <- append_assoc, split_app.
  - change (JsString.split "&" "other=x") with ["other=x"].
    cbn [map]. change ("id_token=" +:+ token) with ("id_token" +:+ String "=" token).
    rewrite split_app by reflexivity. rewrite (split_none _ _ Heq).
    reflexivity.
  - rewrite mem_app, Hamp. reflexivity.
Qed.

(** [split('=')] cuts at every [=]: only the piece up to the next [=] of a
    padded value is taken, and a later pair without value unsets the token. *)
Example fragment_edge_cases :
  fragment_idToken "#id_token=QUJD=&other=x" = Some "QUJD"
  /\ fragment_idToken "#id_token=ABC&id_token" = None
  /\ fragment_idToken "#access_token=ABC" = None
  /\ fragment_idToken "" = None.
Proof. vm_compute. repeat split. Qed.

End FragmentFacts.

Section LoginFacts.

Variable cfg : Config.
Variable jwtDecode : string -> option DecodedToken.

(** For a fragment without an [id_token] pair the executor of [login()]
    calls neither [resolve] nor [reject]: the promise is never settled, and
    nothing of the state changes. *)
Theorem login_without_token (w : World) :
  has_id_token (hash w) = false ->
  login cfg jwtDecode w = (Pending, w).
Proof.
  intros Hno. unfold login. now rewrite (fragment_without_token _ Hno).
Qed.

(** C3: for the fragment [#id_token=ABC&other=x], where [ABC] is a
    non-empty token free of [&] and [=] that decodes, [login()] sets the
    session token to [ABC], stores it under the user-pool key and resolves
    with it; and [init()] on any page holding that stored value before the
    expiry returns normally with [isAuthenticated()] handing back [ABC],
    which is truthy. *)
Theorem login_init_roundtrip (w : World) (ABC : string) (d : DecodedToken) (e : Z) :
  hash w = "#id_token=" +:+ ABC +:+ "&other=x" ->
  ABC <> "" ->
  JsString.mem "&" ABC = false ->
  JsString.mem "=" ABC = false ->
  jwtDecode ABC = Some d ->
  exp d = Some e ->
  fst (login cfg jwtDecode w) = Resolved ABC
  /\ idToken (snd (login cfg jwtDecode w)) = Some ABC
  /\ localStorage (snd (login cfg jwtDecode w)) !! cognitoUserPoolId cfg = Some ABC
  /\ forall w2 : World,
      localStorage w2 !! cognitoUserPoolId cfg = Some ABC ->
      clock w2 < e * 1000 ->
      eval (init cfg jwtDecode) w2 = Ret tt
      /\ eval isAuthenticated (exec (init cfg jwtDecode) w2) = Ret (Some ABC)
      /\ authenticated (exec (init cfg jwtDecode) w2) = true.
Proof.
  intros Hhash Hne Hamp Heq Hdec Hexp.
  assert (Hlogin : fst (login cfg jwtDecode w) = Resolved ABC
                   /\ idToken (snd (login cfg jwtDecode w)) = Some ABC
                   /\ localStorage (snd (login cfg jwtDecode w)) !! cognitoUserPoolId cfg
                      = Some ABC).
  { unfold login. rewrite Hhash, (fragment_with_token _ Hamp Heq), (truthy_Some _ Hne).
    unfold localStorage_setItem. rewrite !bind_modify. cbn [default].
    set (w1 := set_idToken (Some ABC) _).
    destruct (setCredentials_ok cfg jwtDecode w1 ABC d eq_refl Hdec)
      as [Hrun [Htok [Hstore _]]].
    rewrite Hrun. cbn [fst snd]. split; [reflexivity | split; [exact Htok |]].
    rewrite Hstore. subst w1. simpl. apply lookup_insert_eq. }
  destruct Hlogin as [Hres [Htok Hstore]].
  split; [exact Hres | split; [exact Htok | split; [exact Hstore |]]].
  intros w2 Hstored Hfresh.
  assert (Hinit : restore cfg jwtDecode
                    (set_effects (effects w2 ++ [InitApiGatewayClient None]) w2)
                  = (Ret (Some ABC, true),
                     set_effects (effects w2 ++ [InitApiGatewayClient None]) w2)).
  { rewrite restore_spec. simpl localStorage. simpl clock.
    rewrite Hstored, (truthy_Some _ Hne), Hdec, Hexp.
    now apply Z.ltb_lt in Hfresh as ->. }
  unfold eval, exec. rewrite init_unfold, Hinit.
  set (w3 := set_idToken (Some ABC) _).
  destruct (setCredentials_ok cfg jwtDecode w3 ABC d eq_refl Hdec) as [Hrun [Htok3 _]].
  rewrite Hrun. cbn [fst snd]. unfold isAuthenticated, gets, authenticated. cbn [fst].
  rewrite Htok3. split; [reflexivity | split; [reflexivity |]].
  now apply truthy_Some.
Qed.

End LoginFacts.

(** C2: on the fragment [#access_token=ABC] the promise of [login()] is
    not rejected as it should be: the executor settles it on the other
    paths, [resolve] for a token and [reject] for a thrown error, and
    forgets to on this one, so it stays pending for ever. The state is
    unchanged. *)
Lemma login_missing_token_not_rejected :
  let w := pageLoad ∅ "#access_token=ABC" Demo.now in
  has_id_token (hash w) = false
  /\ fst (login Demo.cfg Demo.jwtDecode w) = Pending
  /\ ~ (exists e, fst (login Demo.cfg Demo.jwtDecode w) = Rejected e)
  /\ snd (login Demo.cfg Demo.jwtDecode w) = w.
Proof.
  intros w. split; [reflexivity | split; [reflexivity | split; [| reflexivity]]].
  intros [e He]. vm_compute in He. discriminate.
Qed.

Lemma login_without_token_witness :
  let w := pageLoad ∅ "#access_token=ABC" Demo.now in
  has_id_token (hash w) = false
  /\ login Demo.cfg Demo.jwtDecode w = (Pending, w).
Proof.
  intros w.
  assert (Hno : has_id_token (hash w) = false) by reflexivity.
  split; [exact Hno |].
  exact (login_without_token Demo.cfg Demo.jwtDecode w Hno).
Defined.

Lemma login_init_roundtrip_witness :
  let w := pageLoad ∅ "#id_token=ABC&other=x" Demo.now in
  hash w = "#id_token=" +:+ "ABC" +:+ "&other=x" /\ "ABC" <> ""
  /\ JsString.mem "&" "ABC" = false /\ JsString.mem "=" "ABC" = false
  /\ fst (login Demo.cfg Demo.jwtDecode w) = Resolved "ABC"
  /\ idToken (snd (login Demo.cfg Demo.jwtDecode w)) = Some "ABC"
  /\ localStorage (snd (login Demo.cfg Demo.jwtDecode w)) !! cognitoUserPoolId Demo.cfg
     = Some "ABC"
  /\ forall w2 : World,
      localStorage w2 !! cognitoUserPoolId Demo.cfg = Some "ABC" ->
      clock w2 < 2000000000 * 1000 ->
      eval (init Demo.cfg Demo.jwtDecode) w2 = Ret tt
      /\ eval isAuthenticated (exec (init Demo.cfg Demo.jwtDecode) w2) = Ret (Some "ABC")
      /\ authenticated (exec (init Demo.cfg Demo.jwtDecode) w2) = true.
Proof.
  intros w.
  assert (Hne : "ABC" <> "") by discriminate.
  split; [reflexivity | split; [exact Hne | split; [reflexivity | split; [reflexivity |]]]].
  exact (login_init_roundtrip Demo.cfg Demo.jwtDecode w "ABC" _ 2000000000
           eq_refl Hne eq_refl eq_refl eq_refl eq_refl).
Defined.

(** C3, as the spec has it, fails twice. On the fragment
    [#id_token=ABC&other=x] itself [isAuthenticated()] after [login()] and
    [init()] is the token string, not the boolean [true]. And for a token
    that decodes but contains [=], here base64 padding, [login()] cuts the
    value at the first [=], stores the cut token and rejects. *)
Lemma login_roundtrip_not_as_stated :
  (let w := pageLoad ∅ "#id_token=ABC&other=x" Demo.now in
   let w1 := snd (login Demo.cfg Demo.jwtDecode w) in
   let w2 := exec (init Demo.cfg Demo.jwtDecode) w1 in
   of_token (idToken w2) = VString "ABC"
   /\ eval isAuthenticated w2 = Ret (idToken w2)
   /\ of_token (idToken w2) <> VBool true)
  /\ (let w := pageLoad ∅ ("#id_token=" +:+ Local.padded +:+ "&other=x") Demo.now in
      let w1 := snd (login Local.cfg Local.jwtDecode w) in
      Local.jwtDecode Local.padded
      = Some {| exp := Some 2000000000; preferred_role := None |}
      /\ clock w < 2000000000 * 1000
      /\ fst (login Local.cfg Local.jwtDecode w)
         = Rejected (InvalidTokenError (Some "h.cGF5bG9hZA"))
      /\ idToken w1 = Some "h.cGF5bG9hZA"
      /\ localStorage w1 !! cognitoUserPoolId Local.cfg = Some "h.cGF5bG9hZA"
      /\ idToken w1 <> Some Local.padded
      /\ fst (login Local.cfg Local.jwtDecode w) <> Resolved Local.padded).
Proof.
  split.
  - vm_compute. repeat split; discriminate.
  - vm_compute. repeat split; discriminate.
Qed.

(** The round trip across a reload of the concrete portal: only the
    storage written by [login()] is handed to the next page. *)
Example login_reload_demo :
  eval isAuthenticated
    (run Demo.cfg Demo.jwtDecode Init
       (pageLoad (localStorage Demo.loggedIn) "" (Demo.now + 1000)))
  = Ret (Some "ABC").
Proof. vm_compute. reflexivity. Qed.

(** A token that does not decode is stored all the same before
    [setCredentials()] throws and the promise is rejected. *)
Example login_malformed_demo :
  let r := login Demo.cfg Demo.jwtDecode (pageLoad ∅ "#id_token=garbage" Demo.now) in
  fst r = Rejected (InvalidTokenError (Some "garbage"))
  /\ idToken (snd r) = Some "garbage"
  /\ localStorage (snd r) !! Demo.pool = Some "garbage".
Proof. vm_compute. repeat split. Qed.

(** ** Failure of the credentials exchange *)

Section RefreshFacts.

(** C8: when the exchange behind the pending promise [p] of a
    [setCredentials()] call fails with [e], the callback logs [e] and
    rejects [p] with it, and nothing else happens: the token, the storage,
    the deadline and its handle are as before, and the log entry is the
    only effect, so there is no logout and no redirect. *)
Theorem refresh_failure_reported (w : World) (p : nat) (e : error) :
  promises w !! p = Some Pending ->
  let w' := exec (refreshCallback p (Some e)) w in
  eval (refreshCallback p (Some e)) w = Ret tt
  /\ promises w' !! p = Some (Rejected e)
  /\ effects w' = (effects w ++ [ConsoleError e])%list
  /\ idToken w' = idToken w
  /\ localStorage w' = localStorage w
  /\ timers w' = timers w
  /\ inactivityTimeout w' = inactivityTimeout w
  /\ count is_navigate (effects w') = count is_navigate (effects w).
Proof.
  intros Hp.
  assert (Hrun : refreshCallback p (Some e) w
                 = (Ret tt,
                    set_promises (<[p := Rejected e]> (promises w))
                      (set_effects (effects w ++ [ConsoleError e]) w))).
  { unfold refreshCallback, emit, reject.
    rewrite bind_modify, bind_gets. cbn [promises set_effects]. now rewrite Hp. }
  unfold eval, exec. rewrite Hrun. cbn [fst snd].
  split; [reflexivity | split]; [| repeat (split; [reflexivity |])].
  - cbn [promises set_promises]. apply list_lookup_insert_eq.
    now apply lookup_lt_Some in Hp.
  - cbn [effects set_promises set_effects].
    rewrite count_app. unfold count at 2. cbn [List.filter is_navigate length]. lia.
Qed.

(** The promise a successful [setCredentials()] hands to its caller is
    such a pending promise. *)
Lemma setCredentials_pending
    (cfg : Config) (jwtDecode : string -> option DecodedToken)
    (w : World) (token : string) (d : DecodedToken) :
  idToken w = Some token ->
  jwtDecode token = Some d ->
  exists p, eval (setCredentials cfg jwtDecode) w = Ret p
            /\ promises (exec (setCredentials cfg jwtDecode) w) !! p = Some Pending.
Proof.
  intros Htok Hdec.
  destruct (setCredentials_ok cfg jwtDecode w token d Htok Hdec)
    as [Hrun [_ [_ [_ [_ [_ [Hps _]]]]]]].
  exists (length (promises w)). unfold eval. rewrite Hrun. split; [reflexivity |].
  rewrite Hps. apply list_lookup_middle. reflexivity.
Qed.

End RefreshFacts.

Lemma refresh_failure_reported_witness :
  let w := Demo.loggedIn in
  let e := ExchangeError "NetworkingError" in
  promises w !! 0%nat = Some Pending
  /\ eval (refreshCallback 0 (Some e)) w = Ret tt
  /\ promises (exec (refreshCallback 0 (Some e)) w) !! 0%nat = Some (Rejected e)
  /\ effects (exec (refreshCallback 0 (Some e)) w) = (effects w ++ [ConsoleError e])%list
  /\ idToken (exec (refreshCallback 0 (Some e)) w) = idToken w
  /\ localStorage (exec (refreshCallback 0 (Some e)) w) = localStorage w
  /\ timers (exec (refreshCallback 0 (Some e)) w) = timers w
  /\ inactivityTimeout (exec (refreshCallback 0 (Some e)) w) = inactivityTimeout w
  /\ count is_navigate (effects (exec (refreshCallback 0 (Some e)) w))
     = count is_navigate (effects w).
Proof.
  intros w e.
  assert (Hp : promises w !! 0%nat = Some Pending) by reflexivity.
  split; [exact Hp |].
  exact (refresh_failure_reported w 0 e Hp).
Defined.

(** The session of the concrete portal survives a failed exchange. *)
Example refresh_failure_demo :
  let w := run Demo.cfg Demo.jwtDecode
             (RefreshDone 0 (Some (ExchangeError "NetworkingError"))) Demo.loggedIn in
  idToken w = Some "ABC"
  /\ localStorage w !! Demo.pool = Some "ABC"
  /\ promises w = [Rejected (ExchangeError "NetworkingError")]
  /\ List.filter is_navigate (effects w) = [].
Proof. vm_compute. repeat split. Qed.

(** ** Activity signals *)

Section ActivityFacts.

Variable cfg : Config.

Lemma refreshActivity_reset (w : World) (h : positive) :
  inactivityTimeout w = Some h ->
  hasReset w = false ->
  let w' := exec (refreshActivity cfg) w in
  hasReset w' = true
  /\ frames w' = S (frames w)
  /\ inactivityTimeout w' = Some (nextHandle w)
  /\ nextHandle w' = Pos.succ (nextHandle w)
  /\ timers w'
     = (cancel (Some h) (timers w)
          ++ [(nextHandle w, clock w + clientSessionTimeout cfg)])%list
  /\ effects w'
     = (effects w ++ [RequestAnimationFrame; ClearTimeout (Some h);
                      SetTimeout (nextHandle w) (clientSessionTimeout cfg)])%list
  /\ idToken w' = idToken w
  /\ localStorage w' = localStorage w
  /\ clock w' = clock w.
Proof.
  intros Hh Hreset. unfold exec, refreshActivity. rewrite !bind_gets, Hh, Hreset.
  cbn. rewrite <- !app_assoc. repeat split.
Qed.

Lemma refreshActivity_throttled (w : World) :
  hasReset w = true -> refreshActivity cfg w = (Ret tt, w).
Proof.
  intros Hreset. unfold refreshActivity. rewrite !bind_gets, Hreset.
  now rewrite andb_false_r.
Qed.

Lemma refreshActivity_idle (w : World) :
  inactivityTimeout w = None -> refreshActivity cfg w = (Ret tt, w).
Proof.
  intros Hnone. unfold refreshActivity. rewrite !bind_gets, Hnone. reflexivity.
Qed.

(** A burst of signals is one signal. *)
Lemma signals_collapse (w : World) (h : positive) (n : nat) :
  inactivityTimeout w = Some h ->
  hasReset w = false ->
  signals cfg (S n) w = exec (refreshActivity cfg) w.
Proof.
  intros Hh Hreset. induction n as [|n IH]; [reflexivity |].
  change (signals cfg (S (S n)) w)
    with (exec (refreshActivity cfg) (signals cfg (S n) w)).
  rewrite IH. unfold exec at 1. rewrite refreshActivity_throttled; [reflexivity |].
  apply (refreshActivity_reset w h Hh Hreset).
Qed.

(** C4: with a deadline handle recorded and the throttle open, [N >= 1]
    signals with no animation frame in between do what one signal does:
    one frame request, one cancellation of the recorded deadline and one
    new deadline, which becomes the recorded one; the frame callback then
    reopens the throttle, and the next signal reschedules again. *)
Theorem activity_burst_coalesced (w : World) (h : positive) (N : nat) :
  (1 <= N)%nat ->
  inactivityTimeout w = Some h ->
  hasReset w = false ->
  let w' := signals cfg N w in
  w' = signals cfg 1 w
  /\ effects w'
     = (effects w ++ [RequestAnimationFrame; ClearTimeout (Some h);
                      SetTimeout (nextHandle w) (clientSessionTimeout cfg)])%list
  /\ count is_cancel (effects w') = (count is_cancel (effects w) + 1)%nat
  /\ count is_reschedule (effects w') = (count is_reschedule (effects w) + 1)%nat
  /\ timers w'
     = (cancel (Some h) (timers w)
          ++ [(nextHandle w, clock w + clientSessionTimeout cfg)])%list
  /\ inactivityTimeout w' = Some (nextHandle w)
  /\ hasReset w' = true
  /\ hasReset (exec animationFrame w') = false
  /\ count is_reschedule (effects (signals cfg 1 (exec animationFrame w')))
     = (count is_reschedule (effects w) + 2)%nat.
Proof.
  intros HN Hh Hreset. destruct N as [|n]; [lia |].
  cbv zeta. rewrite (signals_collapse w h n Hh Hreset).
  destruct (refreshActivity_reset w h Hh Hreset)
    as [Hr [Hf [Hto [Hnext [Htimers [Heff _]]]]]].
  set (w1 := exec (refreshActivity cfg) w) in *.
  assert (Hcancel : count is_cancel (effects w1) = (count is_cancel (effects w) + 1)%nat).
  { rewrite Heff, count_app. reflexivity. }
  assert (Hsched : count is_reschedule (effects w1)
                   = (count is_reschedule (effects w) + 1)%nat).
  { rewrite Heff, count_app. reflexivity. }
  assert (Hframe : exec animationFrame w1 = set_hasReset false (set_frames 0 w1)).
  { unfold exec, animationFrame. rewrite bind_gets, Hf. reflexivity. }
  repeat (split; [first [reflexivity | assumption] |]).
  split; [now rewrite Hframe |].
  rewrite Hframe. set (w2 := set_hasReset false (set_frames 0 w1)).
  change (signals cfg 1 w2) with (exec (refreshActivity cfg) w2).
  destruct (refreshActivity_reset w2 (nextHandle w) Hto eq_refl)
    as [_ [_ [_ [_ [_ [Heff2 _]]]]]].
  rewrite Heff2, count_app. change (effects w2) with (effects w1).
  rewrite Hsched. unfold count at 2. cbn [List.filter is_reschedule length]. lia.
Qed.

End ActivityFacts.

Lemma activity_burst_coalesced_witness :
  let w := Demo.restored in
  (1 <= 100)%nat /\ inactivityTimeout w = Some 1%positive /\ hasReset w = false
  /\ signals Demo.cfg 100 w = signals Demo.cfg 1 w
  /\ effects (signals Demo.cfg 100 w)
     = (effects w ++ [RequestAnimationFrame; ClearTimeout (Some 1%positive);
                      SetTimeout (nextHandle w) (clientSessionTimeout Demo.cfg)])%list
  /\ count is_cancel (effects (signals Demo.cfg 100 w))
     = (count is_cancel (effects w) + 1)%nat
  /\ count is_reschedule (effects (signals Demo.cfg 100 w))
     = (count is_reschedule (effects w) + 1)%nat
  /\ timers (signals Demo.cfg 100 w)
     = (cancel (Some 1%positive) (timers w)
          ++ [(nextHandle w, clock w + clientSessionTimeout Demo.cfg)])%list
  /\ inactivityTimeout (signals Demo.cfg 100 w) = Some (nextHandle w)
  /\ hasReset (signals Demo.cfg 100 w) = true
  /\ hasReset (exec animationFrame (signals Demo.cfg 100 w)) = false
  /\ count is_reschedule
       (effects (signals Demo.cfg 1 (exec animationFrame (signals Demo.cfg 100 w))))
     = (count is_reschedule (effects w) + 2)%nat.
Proof.
  intros w.
  assert (HN : (1 <= 100)%nat) by lia.
  split; [exact HN | split; [reflexivity | split; [reflexivity |]]].
  exact (activity_burst_coalesced Demo.cfg w 1%positive 100 HN eq_refl eq_refl).
Defined.

(** A burst on the concrete portal: the deadline armed by [init()] is
    replaced by one new deadline. *)
Example activity_burst_demo :
  timers (signals Demo.cfg 100 (set_clock (Demo.now + 5000) Demo.restored))
  = [(2%positive, Demo.now + 5000 + 3600000)].
Proof. vm_compute. reflexivity. Qed.

(** ** The inactivity deadline across the life of a page *)

Section DeadlineFacts.

Variable cfg : Config.
Variable jwtDecode : string -> option DecodedToken.

Lemma handle_recorded_frame (w w' : World) :
  idToken w' = idToken w ->
  inactivityTimeout w' = inactivityTimeout w ->
  handle_recorded w -> handle_recorded w'.
Proof. unfold handle_recorded, authenticated. now intros -> ->. Qed.

Lemma handle_recorded_unauthenticated (w : World) :
  authenticated w = false -> handle_recorded w.
Proof. unfold handle_recorded. intros ->. discriminate. Qed.

Lemma handle_recorded_set (w : World) (h : positive) :
  inactivityTimeout w = Some h -> handle_recorded w.
Proof. unfold handle_recorded. intros -> _. now exists h. Qed.

(** [setCredentials()] records its deadline before anything can throw. *)
Lemma setCredentials_handle (w : World) :
  inactivityTimeout (snd (setCredentials cfg jwtDecode w)) = Some (nextHandle w).
Proof.
  unfold setCredentials, setTimeout, new_promise, emit, decode.
  cbv [bind gets modify ret throw]. simpl.
  destruct (idToken w) as [token|]; [destruct (jwtDecode token) |]; reflexivity.
Qed.

Lemma restore_frame (w : World) :
  exists r es, restore cfg jwtDecode w = (Ret r, set_effects (effects w ++ es) w).
Proof.
  rewrite restore_spec.
  assert (Hsame : w = set_effects (effects w ++ []) w)
    by (rewrite app_nil_r; now destruct w).
  destruct (localStorage w !! cognitoUserPoolId cfg) as [token|];
    [| exists (None, false), []; now rewrite <- Hsame].
  destruct (truthy (Some token));
    [| exists (Some token, false), []; now rewrite <- Hsame].
  destruct (jwtDecode token) as [d|]; eexists _, _.
  - now rewrite <- Hsame.
  - reflexivity.
Qed.

Lemma init_handle_recorded (w : World) :
  handle_recorded (exec (init cfg jwtDecode) w).
Proof.
  unfold exec. rewrite init_unfold.
  destruct (restore_frame (set_effects (effects w ++ [InitApiGatewayClient None]) w))
    as [[stored valid] [es Hres]].
  rewrite Hres. destruct valid.
  - set (w1 := set_idToken stored _).
    pose proof (setCredentials_handle w1) as Hh.
    destruct (setCredentials cfg jwtDecode w1) as [[p|e] w2];
      exact (handle_recorded_set _ _ Hh).
  - apply handle_recorded_unauthenticated, (logout_unauthenticated cfg).
Qed.

Lemma login_handle_recorded (w : World) :
  handle_recorded w -> handle_recorded (snd (login cfg jwtDecode w)).
Proof.
  intros Hw. unfold login.
  destruct (truthy (fragment_idToken (hash w))); [| exact Hw].
  unfold localStorage_setItem. rewrite !bind_modify.
  set (w1 := set_idToken _ _).
  pose proof (setCredentials_handle w1) as Hh.
  destruct (setCredentials cfg jwtDecode w1) as [[p|e] w2];
    exact (handle_recorded_set _ _ Hh).
Qed.

Lemma refreshActivity_handle_recorded (w : World) :
  handle_recorded w -> handle_recorded (exec (refreshActivity cfg) w).
Proof.
  intros Hw.
  destruct (inactivityTimeout w) as [h|] eqn:Hh.
  - destruct (hasReset w) eqn:Hreset.
    + unfold exec. now rewrite refreshActivity_throttled.
    + destruct (refreshActivity_reset cfg w h Hh Hreset) as [_ [_ [Hto _]]].
      exact (handle_recorded_set _ _ Hto).
  - unfold exec. now rewrite refreshActivity_idle.
Qed.

Lemma logoutInactive_handle_recorded (w : World) :
  handle_recorded w -> handle_recorded (exec (logoutInactive cfg) w).
Proof.
  intros Hw. unfold exec, logoutInactive. rewrite !bind_gets.
  destruct (negb (bool_decide (is_Some (inactivityTimeout w))) || hasReset w);
    [exact Hw |].
  rewrite bind_modify, bind_gets. cbn [idToken set_inactivityTimeout].
  apply handle_recorded_unauthenticated. unfold authenticated.
  destruct (truthy (idToken w)) eqn:Htok.
  - destruct (truthy (cognitoDomain cfg)); reflexivity.
  - exact Htok.
Qed.

Lemma fire_handle_recorded (w : World) (h : positive) :
  handle_recorded w -> handle_recorded (exec (fire cfg h) w).
Proof.
  intros Hw. unfold exec, fire. rewrite bind_gets.
  destruct (existsb _ (timers w)); [| exact Hw].
  rewrite bind_modify. apply logoutInactive_handle_recorded.
  now apply (handle_recorded_frame w).
Qed.

Lemma refreshCallback_frame (w : World) (p : nat) (err : option error) :
  idToken (exec (refreshCallback p err) w) = idToken w
  /\ inactivityTimeout (exec (refreshCallback p err) w) = inactivityTimeout w.
Proof.
  unfold exec, refreshCallback, emit, reject. destruct err as [e|].
  - rewrite bind_modify, bind_gets. cbn [promises set_effects].
    destruct (promises w !! p) as [[| |]|]; split; reflexivity.
  - split; reflexivity.
Qed.

(** Every step of a page keeps a handle recorded while authenticated. *)
Lemma run_handle_recorded (ev : event) (w : World) :
  handle_recorded w -> handle_recorded (run cfg jwtDecode ev w).
Proof.
  intros Hw. destruct ev as [| | | | |h|p err|dt|fragment]; cbn [run].
  - apply init_handle_recorded.
  - now apply login_handle_recorded.
  - apply handle_recorded_unauthenticated, logout_unauthenticated.
  - now apply refreshActivity_handle_recorded.
  - unfold exec, animationFrame. rewrite bind_gets.
    destruct (frames w); [exact Hw |]. now apply (handle_recorded_frame w).
  - now apply fire_handle_recorded.
  - destruct (refreshCallback_frame w p err) as [Htok Hto].
    now apply (handle_recorded_frame w).
  - now apply (handle_recorded_frame w).
  - now apply (handle_recorded_frame w).
Qed.

(** On every state a page can reach, an authenticated session has a
    deadline handle recorded: [setCredentials()] records one before it can
    throw, and only the inactivity logout, which also clears the token,
    drops it. *)
Theorem reachable_handle_recorded (w : World) :
  reachable cfg jwtDecode w -> handle_recorded w.
Proof.
  induction 1 as [storage fragment now | ev w _ IH].
  - now apply handle_recorded_unauthenticated.
  - now apply run_handle_recorded.
Qed.

(** [logout()] leaves the timer queue and the recorded handle alone. *)
Lemma logout_keeps_timers (w : World) :
  timers (exec (logout cfg) w) = timers w
  /\ inactivityTimeout (exec (logout cfg) w) = inactivityTimeout w
  /\ hasReset (exec (logout cfg) w) = hasReset w.
Proof.
  unfold exec. rewrite logout_spec. cbn [snd].
  destruct (authenticated w); [| repeat split].
  unfold cleared. destruct (truthy (cognitoDomain cfg)); repeat split.
Qed.

(** A deadline that comes due while no token is set clears nothing and
    navigates nowhere. *)
Lemma fire_unauthenticated (w : World) (h : positive) :
  authenticated w = false ->
  idToken (exec (fire cfg h) w) = idToken w
  /\ localStorage (exec (fire cfg h) w) = localStorage w
  /\ effects (exec (fire cfg h) w) = effects w.
Proof.
  unfold authenticated. intros Hno. unfold exec, fire. rewrite bind_gets.
  destruct (existsb _ (timers w)); [| repeat split].
  rewrite bind_modify. unfold logoutInactive. rewrite !bind_gets.
  cbn [inactivityTimeout hasReset set_timers].
  destruct (negb (bool_decide (is_Some (inactivityTimeout w))) || hasReset w);
    [repeat split |].
  rewrite bind_modify, bind_gets. cbn [idToken set_inactivityTimeout set_timers].
  rewrite Hno. repeat split.
Qed.

End DeadlineFacts.

(** On the concrete portal, after [init()] restored a session one deadline
    is pending and the session is authenticated, and [logout()] leaves that
    deadline pending in an unauthenticated session. *)
Lemma logout_leaves_deadline_pending :
  let w := Demo.restored in
  let w' := run Demo.cfg Demo.jwtDecode Logout w in
  ((length (timers w) <= 1)%nat /\ (pending w = true <-> authenticated w = true))
  /\ timers w' = timers w
  /\ pending w' = true
  /\ authenticated w' = false
  /\ ~ (pending w' = true <-> authenticated w' = true).
Proof.
  intros w w'.
  assert (Hp : pending w' = true) by (vm_compute; reflexivity).
  assert (Ha : authenticated w' = false) by (vm_compute; reflexivity).
  split; [split; [vm_compute; lia | split; intros _; vm_compute; reflexivity] |].
  split; [vm_compute; reflexivity | split; [exact Hp | split; [exact Ha |]]].
  intros [Hiff _]. rewrite Ha in Hiff. specialize (Hiff Hp). discriminate.
Qed.

(** C1: [logout()] misses the cancellation. On a portal without hosted
    logout, [init()] restores a session and arms deadline 1; [logout()]
    clears the session but leaves deadline 1 pending and its handle
    recorded; the next [login()] arms deadline 2 beside it; and when
    deadline 1 comes due it clears the token and the storage of the new
    session. *)
Lemma logout_misses_cancellation :
  let w0 := pageLoad {[ Demo.pool := "ABC" ]} "" Demo.now in
  let w1 := runs Local.cfg Demo.jwtDecode [Init; Logout] w0 in
  let w2 := runs Local.cfg Demo.jwtDecode [HashChange "#id_token=REG"; Login] w1 in
  let w3 := run Local.cfg Demo.jwtDecode (Fire 1) w2 in
  (authenticated w1 = false
   /\ timers w1 = [(1%positive, Demo.now + 3600000)]
   /\ inactivityTimeout w1 = Some 1%positive
   /\ pending w1 = true)
  /\ (authenticated w2 = true
      /\ idToken w2 = Some "REG"
      /\ localStorage w2 !! Demo.pool = Some "REG"
      /\ timers w2 = [(1%positive, Demo.now + 3600000); (2%positive, Demo.now + 3600000)])
  /\ (idToken w3 = None
      /\ localStorage w3 = ∅
      /\ authenticated w3 = false
      /\ timers w3 = [(2%positive, Demo.now + 3600000)]).
Proof. vm_compute. repeat split. Qed.

Lemma reachable_handle_recorded_witness :
  reachable Local.cfg Demo.jwtDecode Local.resigned
  /\ handle_recorded Local.resigned.
Proof.
  assert (Hreach : reachable Local.cfg Demo.jwtDecode Local.resigned).
  { unfold Local.resigned, runs. cbn [fold_left]. repeat apply reachable_run.
    apply reachable_fresh. }
  split; [exact Hreach |].
  exact (reachable_handle_recorded Local.cfg Demo.jwtDecode Local.resigned Hreach).
Defined.

(** Two calls of [setCredentials()] on one page, [init()] with a stored
    token followed by [login()], leave two deadlines pending: only
    [refreshActivity] cancels the previous one. *)
Example two_deadlines_demo :
  timers (runs Demo.cfg Demo.jwtDecode [Init; HashChange "#id_token=REG"; Login]
            (pageLoad {[ Demo.pool := "ABC" ]} "" Demo.now))
  = [(1%positive, Demo.now + 3600000); (2%positive, Demo.now + 3600000)].
Proof. vm_compute. reflexivity. Qed.

(** With no session opened in between, the deadline left behind by
    [logout()] comes due without effect. *)
Example stale_deadline_demo :
  let w := runs Demo.cfg Demo.jwtDecode [Logout] Demo.restored in
  let w' := run Demo.cfg Demo.jwtDecode (Fire 1) w in
  timers w = [(1%positive, Demo.now + 3600000)]
  /\ timers w' = []
  /\ inactivityTimeout w' = None
  /\ effects w' = effects w.
Proof. vm_compute. repeat split. Qed.

(** * Further properties of the controller *)

(** ** Role predicates beyond the administrator marker *)

Section MoreRoles.

Variable jwtDecode : string -> option DecodedToken.

(** In an authenticated session whose token decodes, [isRegistered()] is
    true exactly when the role string contains one of the two markers. *)
Theorem isRegistered_iff_markers (w : World) (token : string) (d : DecodedToken) :
  idToken w = Some token -> token <> "" ->
  jwtDecode token = Some d ->
  exists b : bool,
    isRegistered jwtDecode w = (Ret b, w)
    /\ (b = true <->
        (exists pre post,
            default "" (preferred_role d) = pre +:+ "-CognitoAdminRole-" +:+ post)
        \/ (exists pre post,
               default "" (preferred_role d) = pre +:+ "-CognitoRegisteredRole-" +:+ post)).
Proof.
  intros Htok Hne Hdec. eexists. split.
  - exact (isRegistered_decoded jwtDecode w token d Htok Hne Hdec).
  - now rewrite orb_true_iff, !includes_app.
Qed.

(** With a token set that does not decode, the role predicates throw the
    decoder's error instead of answering. *)
Theorem roles_throw_undecodable (w : World) (token : string) :
  idToken w = Some token -> token <> "" ->
  jwtDecode token = None ->
  isAdmin jwtDecode w = (Throw (InvalidTokenError (Some token)), w)
  /\ isRegistered jwtDecode w = (Throw (InvalidTokenError (Some token)), w).
Proof.
  intros Htok Hne Hdec.
  assert (Hrole : getPreferredRole jwtDecode w
                  = (Throw (InvalidTokenError (Some token)), w)).
  { unfold getPreferredRole. rewrite bind_gets, Htok. unfold decode.
    rewrite Hdec. reflexivity. }
  unfold isAdmin, isRegistered.
  rewrite !bind_gets, Htok, (truthy_Some _ Hne). cbn [negb].
  now rewrite !(bind_Throw _ _ _ _ _ Hrole).
Qed.

(** Without a token the decoder is never consulted: [isRegistered()] is
    [false] and [isAdmin()] hands back the falsy token itself. *)
Theorem roles_unauthenticated (w : World) :
  authenticated w = false ->
  isRegistered jwtDecode w = (Ret false, w)
  /\ isAdmin jwtDecode w = (Ret (of_token (idToken w)), w)
  /\ to_boolean (of_token (idToken w)) = false.
Proof.
  unfold authenticated. intros Hno. unfold isRegistered, isAdmin.
  rewrite !bind_gets, Hno. repeat split.
  destruct (idToken w) as [s|]; [exact Hno | reflexivity].
Qed.

End MoreRoles.

Lemma isRegistered_iff_markers_witness :
  idToken Pages.registered = Some "REG" /\ "REG" <> ""
  /\ exists b : bool,
      isRegistered Demo.jwtDecode Pages.registered = (Ret b, Pages.registered)
      /\ (b = true <->
          (exists pre post,
              "arn:aws:iam::1:role/portal-CognitoRegisteredRole-X2"
              = pre +:+ "-CognitoAdminRole-" +:+ post)
          \/ (exists pre post,
                 "arn:aws:iam::1:role/portal-CognitoRegisteredRole-X2"
                 = pre +:+ "-CognitoRegisteredRole-" +:+ post)).
Proof.
  assert (Hne : "REG" <> "") by discriminate.
  split; [reflexivity | split; [exact Hne |]].
  exact (isRegistered_iff_markers Demo.jwtDecode Pages.registered "REG" _
           eq_refl Hne eq_refl).
Defined.

Lemma roles_throw_undecodable_witness :
  idToken Pages.malformed = Some "garbage" /\ "garbage" <> ""
  /\ Demo.jwtDecode "garbage" = None
  /\ isAdmin Demo.jwtDecode Pages.malformed
     = (Throw (InvalidTokenError (Some "garbage")), Pages.malformed)
  /\ isRegistered Demo.jwtDecode Pages.malformed
     = (Throw (InvalidTokenError (Some "garbage")), Pages.malformed).
Proof.
  assert (Hne : "garbage" <> "") by discriminate.
  split; [reflexivity | split; [exact Hne | split; [reflexivity |]]].
  exact (roles_throw_undecodable Demo.jwtDecode Pages.malformed "garbage"
           eq_refl Hne eq_refl).
Defined.

Lemma roles_unauthenticated_witness :
  authenticated Pages.anonymous = false
  /\ isRegistered Demo.jwtDecode Pages.anonymous = (Ret false, Pages.anonymous)
  /\ isAdmin Demo.jwtDecode Pages.anonymous
     = (Ret (of_token (idToken Pages.anonymous)), Pages.anonymous)
  /\ to_boolean (of_token (idToken Pages.anonymous)) = false.
Proof.
  split; [reflexivity |].
  exact (roles_unauthenticated Demo.jwtDecode Pages.anonymous eq_refl).
Defined.

(** ** Return addresses *)

Section UrlFacts.

Variable cfg : Config.

Lemma append_nil_r (s : string) : s +:+ "" = s.
Proof. induction s as [|c s IH]; simpl; [reflexivity | now rewrite IH]. Qed.



End UrlFacts.

(** ** A deadline comes due *)

Section FiringFacts.

Variable cfg : Config.

Lemma cancel_absent (h : positive) (q : list (positive * Z)) :
  existsb (fun t => Pos.eqb (fst t) h) q = false -> cancel (Some h) q = q.
Proof.
  unfold cancel. induction q as [|t q IH]; simpl; [reflexivity |].
  rewrite orb_false_iff. intros [Ht Hq]. rewrite Ht. simpl. now rewrite IH.
Qed.

Lemma set_timers_same (w : World) : set_timers (nextHandle w) (timers w) w = w.
Proof. now destruct w. Qed.

(** What [fire] does to the queue, whatever the handler decides. *)
Lemma fire_unfold (w : World) (h : positive) :
  fire cfg h w
  = if is_pending h w
    then logoutInactive cfg (set_timers (nextHandle w) (cancel (Some h) (timers w)) w)
    else (Ret tt, w).
Proof.
  unfold fire, is_pending. rewrite bind_gets.
  destruct (existsb _ (timers w)); reflexivity.
Qed.

(** The inactivity logout: when any pending deadline comes due while a
    handle is recorded, the throttle is open and a token is set, the token
    and the whole storage are cleared, the handle is dropped, and the page
    navigates to the logout address carrying the inactivity return address
    exactly when an identity-provider domain is configured. *)
Theorem inactivity_logout (w : World) (h : positive) :
  is_pending h w = true ->
  is_Some (inactivityTimeout w) ->
  hasReset w = false ->
  authenticated w = true ->
  let w' := exec (fire cfg h) w in
  eval (fire cfg h) w = Ret tt
  /\ idToken w' = None
  /\ localStorage w' = ∅
  /\ inactivityTimeout w' = None
  /\ timers w' = cancel (Some h) (timers w)
  /\ effects w'
     = (effects w
          ++ if truthy (cognitoDomain cfg)
             then [Navigate (logoutUrl cfg (getInactiveLogoutRedirectUrl cfg))]
             else [])%list.
Proof.
  unfold authenticated. intros Hp [h0 Hh] Hreset Hauth.
  unfold eval, exec. rewrite fire_unfold, Hp.
  unfold logoutInactive. rewrite !bind_gets.
  cbn [inactivityTimeout hasReset set_timers]. rewrite Hh, Hreset.
  rewrite bool_decide_true by eauto. cbn [negb orb].
  rewrite bind_modify, bind_gets. cbn [idToken set_inactivityTimeout set_timers].
  rewrite Hauth.
  destruct (truthy (cognitoDomain cfg)); cbn; rewrite ?app_nil_r; repeat split.
Qed.

(** The defensive return of the handler: with no handle recorded, or with
    the throttle closed, a deadline that comes due only leaves the queue. *)
Theorem deadline_ignored (w : World) (h : positive) :
  inactivityTimeout w = None \/ hasReset w = true ->
  let w' := exec (fire cfg h) w in
  eval (fire cfg h) w = Ret tt
  /\ timers w' = cancel (Some h) (timers w)
  /\ idToken w' = idToken w
  /\ localStorage w' = localStorage w
  /\ inactivityTimeout w' = inactivityTimeout w
  /\ hasReset w' = hasReset w
  /\ effects w' = effects w.
Proof.
  intros Hskip. unfold eval, exec. rewrite fire_unfold.
  destruct (is_pending h w) eqn:Hp.
  - unfold logoutInactive. rewrite !bind_gets.
    cbn [inactivityTimeout hasReset set_timers].
    assert (Hguard : negb (bool_decide (is_Some (inactivityTimeout w))) || hasReset w
                     = true).
    { destruct Hskip as [-> | ->]; [reflexivity | apply orb_true_r]. }
    rewrite Hguard. repeat split.
  - cbn [fst snd]. rewrite (cancel_absent h (timers w) Hp). repeat split.
Qed.

End FiringFacts.

Lemma inactivity_logout_witness :
  let w := Demo.restored in
  is_pending 1 w = true /\ is_Some (inactivityTimeout w)
  /\ hasReset w = false /\ authenticated w = true
  /\ eval (fire Demo.cfg 1) w = Ret tt
  /\ idToken (exec (fire Demo.cfg 1) w) = None
  /\ localStorage (exec (fire Demo.cfg 1) w) = ∅
  /\ inactivityTimeout (exec (fire Demo.cfg 1) w) = None
  /\ timers (exec (fire Demo.cfg 1) w) = cancel (Some 1%positive) (timers w)
  /\ effects (exec (fire Demo.cfg 1) w)
     = (effects w
          ++ if truthy (cognitoDomain Demo.cfg)
             then [Navigate (logoutUrl Demo.cfg (getInactiveLogoutRedirectUrl Demo.cfg))]
             else [])%list.
Proof.
  intros w.
  assert (Hh : is_Some (inactivityTimeout w)) by (exists 1%positive; reflexivity).
  split; [reflexivity | split; [exact Hh | split; [reflexivity | split; [reflexivity |]]]].
  exact (inactivity_logout Demo.cfg w 1%positive eq_refl Hh eq_refl eq_refl).
Defined.

Lemma deadline_ignored_witness :
  let w := run Demo.cfg Demo.jwtDecode Activity Demo.restored in
  (inactivityTimeout w = None \/ hasReset w = true)
  /\ eval (fire Demo.cfg 2) w = Ret tt
  /\ timers (exec (fire Demo.cfg 2) w) = cancel (Some 2%positive) (timers w)
  /\ idToken (exec (fire Demo.cfg 2) w) = idToken w
  /\ localStorage (exec (fire Demo.cfg 2) w) = localStorage w
  /\ inactivityTimeout (exec (fire Demo.cfg 2) w) = inactivityTimeout w
  /\ hasReset (exec (fire Demo.cfg 2) w) = hasReset w
  /\ effects (exec (fire Demo.cfg 2) w) = effects w.
Proof.
  intros w.
  assert (Hskip : inactivityTimeout w = None \/ hasReset w = true)
    by (right; reflexivity).
  split; [exact Hskip |].
  exact (deadline_ignored Demo.cfg w 2%positive Hskip).
Defined.

(** The inactivity logout of the concrete portal. *)
Example inactivity_logout_demo :
  List.filter is_navigate (effects (run Demo.cfg Demo.jwtDecode (Fire 1) Demo.restored))
  = [Navigate ("https://auth.example.com/logout?client_id=client1&logout_uri="
               +:+ "https://portal.example.com/index.html?action=logout&reason=inactive")].
Proof. vm_compute. reflexivity. Qed.

(** ** What the operations leave alone *)

Section Frames.

Variable cfg : Config.
Variable jwtDecode : string -> option DecodedToken.

Lemma list_lookup_snoc_Resolved (ps : list (promise unit)) (i : nat) (v : unit) :
  (forall j u, ps !! j <> Some (Resolved u)) ->
  (ps ++ [Pending])%list !! i <> Some (Resolved v).
Proof.
  intros Hps Hi. apply lookup_app_Some in Hi as [Hi | [_ Hi]].
  - exact (Hps _ _ Hi).
  - destruct (i - length ps)%nat; simpl in Hi; discriminate.
Qed.

(** [setCredentials()] touches neither the token nor the storage, never
    navigates, and at most adds one pending promise. *)
Lemma setCredentials_frame (w : World) :
  let w' := snd (setCredentials cfg jwtDecode w) in
  idToken w' = idToken w
  /\ localStorage w' = localStorage w
  /\ (promises w' = promises w \/ promises w' = (promises w ++ [Pending])%list)
  /\ exists es, effects w' = (effects w ++ es)%list /\ count is_navigate es = 0%nat.
Proof.
  unfold setCredentials, setTimeout, new_promise, emit, decode.
  cbv [bind gets modify ret throw]. simpl.
  destruct (idToken w) as [token|] eqn:Htok; [destruct (jwtDecode token) |]; simpl;
    rewrite <- ?app_assoc; repeat split; eauto.
Qed.

Lemma refreshActivity_frame (w : World) :
  let w' := exec (refreshActivity cfg) w in
  eval (refreshActivity cfg) w = Ret tt
  /\ idToken w' = idToken w
  /\ localStorage w' = localStorage w
  /\ promises w' = promises w
  /\ credentials w' = credentials w
  /\ exists es, effects w' = (effects w ++ es)%list
                /\ count is_navigate es = 0%nat /\ count is_exchange es = 0%nat.
Proof.
  unfold eval, exec, refreshActivity. rewrite !bind_gets.
  destruct (bool_decide (is_Some (inactivityTimeout w)) && negb (hasReset w)).
  - cbn. rewrite <- !app_assoc. repeat split. eexists. repeat split.
  - cbn. repeat split. exists []. rewrite app_nil_r. repeat split.
Qed.

Lemma logoutInactive_cases (w : World) :
  exec (logoutInactive cfg) w = w
  \/ authenticated (exec (logoutInactive cfg) w) = false.
Proof.
  unfold exec, logoutInactive. rewrite !bind_gets.
  destruct (negb (bool_decide (is_Some (inactivityTimeout w))) || hasReset w);
    [now left | right].
  rewrite bind_modify, bind_gets. cbn [idToken set_inactivityTimeout].
  unfold authenticated. destruct (truthy (idToken w)) eqn:Htok.
  - destruct (truthy (cognitoDomain cfg)); reflexivity.
  - exact Htok.
Qed.

Lemma logoutInactive_promises (w : World) :
  promises (exec (logoutInactive cfg) w) = promises w.
Proof.
  unfold exec, logoutInactive. rewrite !bind_gets.
  destruct (negb (bool_decide (is_Some (inactivityTimeout w))) || hasReset w);
    [reflexivity |].
  rewrite bind_modify, bind_gets. cbn [idToken set_inactivityTimeout].
  destruct (truthy (idToken w)); [| reflexivity].
  destruct (truthy (cognitoDomain cfg)); reflexivity.
Qed.

Lemma logout_promises (w : World) :
  promises (exec (logout cfg) w) = promises w.
Proof.
  unfold exec. rewrite logout_spec. cbn [snd].
  destruct (authenticated w); [| reflexivity].
  unfold cleared. destruct (truthy (cognitoDomain cfg)); reflexivity.
Qed.

(** The [try] block of [init()] hands back what the storage holds under the
    user-pool key, judged valid only if it is a non-empty token that
    decodes. *)
Lemma restore_stored (w : World) :
  exists valid es,
    restore cfg jwtDecode w
    = (Ret (localStorage w !! cognitoUserPoolId cfg, valid),
       set_effects (effects w ++ es) w)
    /\ count is_navigate es = 0%nat
    /\ count is_exchange es = 0%nat
    /\ (valid = true ->
        exists token d,
          localStorage w !! cognitoUserPoolId cfg = Some token
          /\ token <> "" /\ jwtDecode token = Some d).
Proof.
  rewrite restore_spec.
  assert (Hsame : w = set_effects (effects w ++ []) w)
    by (rewrite app_nil_r; now destruct w).
  destruct (localStorage w !! cognitoUserPoolId cfg) as [token|];
    [| exists false, []; rewrite <- Hsame; repeat split; discriminate].
  destruct (truthy (Some token)) eqn:Htruthy;
    [| exists false, []; rewrite <- Hsame; repeat split; discriminate].
  apply truthy_is_Some in Htruthy as [s [[= <-] Hne]].
  destruct (jwtDecode token) as [d|] eqn:Hdec.
  - eexists _, []. rewrite <- Hsame. repeat split. intros _. eauto.
  - eexists false, _. repeat split. discriminate.
Qed.

(** The two ways [init()] can go. *)
Lemma init_cases (w : World) :
  exists valid es,
    count is_navigate es = 0%nat
    /\ count is_exchange es = 0%nat
    /\ init cfg jwtDecode w
       = (if valid : bool
          then match setCredentials cfg jwtDecode
                       (set_idToken (localStorage w !! cognitoUserPoolId cfg)
                          (set_effects (effects w ++ es) w)) with
               | (Ret _, w2) => (Ret tt, w2)
               | (Throw e, w2) => (Throw e, w2)
               end
          else logout cfg (set_effects (effects w ++ es) w))
    /\ (valid = true ->
        exists token d,
          localStorage w !! cognitoUserPoolId cfg = Some token
          /\ token <> "" /\ jwtDecode token = Some d).
Proof.
  destruct (restore_stored (set_effects (effects w ++ [InitApiGatewayClient None]) w))
    as [valid [es [Hres [Hnav [Hexch Hvalid]]]]].
  exists valid, (InitApiGatewayClient None :: es).
  split; [exact Hnav | split; [exact Hexch |]].
  split; [| exact Hvalid].
  rewrite init_unfold, Hres. cbn [localStorage effects set_effects].
  rewrite <- app_assoc. cbn [app].
  assert (Hw : set_effects (effects w ++ InitApiGatewayClient None :: es)
                 (set_effects (effects w ++ [InitApiGatewayClient None]) w)
               = set_effects (effects w ++ InitApiGatewayClient None :: es) w)
    by reflexivity.
  rewrite Hw. now destruct valid.
Qed.

(** [init()] never throws, whatever the page and the storage hold: a token
    that decoded in the [try] block decodes again in [setCredentials()]. *)
Theorem init_never_throws (w : World) :
  eval (init cfg jwtDecode) w = Ret tt.
Proof.
  destruct (init_cases w) as [valid [es [_ [_ [Hinit Hvalid]]]]].
  unfold eval. rewrite Hinit. destruct valid.
  - destruct (Hvalid eq_refl) as [token [d [Hstored [_ Hdec]]]].
    rewrite Hstored.
    set (w1 := set_idToken (Some token) _).
    destruct (setCredentials_ok cfg jwtDecode w1 token d eq_refl Hdec) as [Hrun _].
    now rewrite Hrun.
  - now rewrite logout_spec.
Qed.

(** On a page without session [init()] neither writes nor clears the
    storage and does not navigate: also a stored token that is expired or
    does not decode stays where it is. *)
Theorem init_keeps_storage (w : World) :
  authenticated w = false ->
  localStorage (exec (init cfg jwtDecode) w) = localStorage w
  /\ count is_navigate (effects (exec (init cfg jwtDecode) w))
     = count is_navigate (effects w).
Proof.
  intros Hno.
  destruct (init_cases w) as [valid [es [Hnav [_ [Hinit _]]]]].
  unfold exec. rewrite Hinit. destruct valid.
  - set (w1 := set_idToken _ _).
    destruct (setCredentials_frame w1) as [_ [Hstore [_ [fs [Heff Hfs]]]]].
    destruct (setCredentials cfg jwtDecode w1) as [[p|e] w2]; cbn [snd] in *;
      (split; [exact Hstore |]); rewrite Heff; subst w1;
      cbn [effects set_idToken set_effects]; rewrite !count_app; lia.
  - rewrite logout_spec. cbn [snd].
    change (authenticated (set_effects (effects w ++ es) w)) with (authenticated w).
    rewrite Hno. cbn [localStorage effects set_effects].
    split; [reflexivity |]. rewrite count_app. lia.
Qed.

End Frames.

Lemma init_keeps_storage_witness :
  let w := pageLoad {[ Demo.pool := "garbage" ]} "" Demo.now in
  authenticated w = false
  /\ localStorage (exec (init Demo.cfg Demo.jwtDecode) w) = localStorage w
  /\ count is_navigate (effects (exec (init Demo.cfg Demo.jwtDecode) w))
     = count is_navigate (effects w).
Proof.
  intros w. split; [reflexivity |].
  exact (init_keeps_storage Demo.cfg Demo.jwtDecode w eq_refl).
Defined.

(** ** Restoring and opening a session *)

Section SessionFacts.

Variable cfg : Config.
Variable jwtDecode : string -> option DecodedToken.

(** The parameters [setCredentials()] builds from the configuration, the
    token and its role claim. *)
Lemma setCredentials_credentials (w : World) (token : string) (d : DecodedToken) :
  idToken w = Some token ->
  jwtDecode token = Some d ->
  credentials (exec (setCredentials cfg jwtDecode) w)
  = Some {| IdentityPoolId := cognitoIdentityPoolId cfg;
            Logins := ("cognito-idp." +:+ cognitoRegion cfg +:+ ".amazonaws.com/"
                         +:+ cognitoUserPoolId cfg, token);
            RoleArn := if truthy (preferred_role d) then preferred_role d else None |}.
Proof.
  intros Htok Hdec.
  unfold exec, setCredentials, setTimeout, new_promise, emit, decode.
  cbv [bind gets modify ret throw]. simpl. rewrite Htok, Hdec. reflexivity.
Qed.

(** A valid stored token is restored: [init()] sets it as the session
    token, arms one deadline a session timeout from now and issues exactly
    one exchange, whose role is the token's preferred role when it has one;
    the storage is not written. *)
Theorem init_restores (w : World) (token : string) (d : DecodedToken) (e : Z) :
  localStorage w !! cognitoUserPoolId cfg = Some token -> token <> "" ->
  jwtDecode token = Some d ->
  exp d = Some e ->
  clock w < e * 1000 ->
  let w' := exec (init cfg jwtDecode) w in
  idToken w' = Some token
  /\ localStorage w' = localStorage w
  /\ inactivityTimeout w' = Some (nextHandle w)
  /\ timers w' = (timers w ++ [(nextHandle w, clock w + clientSessionTimeout cfg)])%list
  /\ effects w'
     = (effects w ++ [InitApiGatewayClient None;
                      SetTimeout (nextHandle w) (clientSessionTimeout cfg);
                      CredentialsRefresh (length (promises w))])%list
  /\ option_map RoleArn (credentials w')
     = Some (if truthy (preferred_role d) then preferred_role d else None).
Proof.
  intros Hstored Hne Hdec Hexp Hfresh.
  assert (Hres : restore cfg jwtDecode
                   (set_effects (effects w ++ [InitApiGatewayClient None]) w)
                 = (Ret (Some token, true),
                    set_effects (effects w ++ [InitApiGatewayClient None]) w)).
  { rewrite restore_spec. simpl localStorage. simpl clock.
    rewrite Hstored, (truthy_Some _ Hne), Hdec, Hexp.
    now apply Z.ltb_lt in Hfresh as ->. }
  cbv zeta. unfold exec. rewrite init_unfold, Hres.
  set (w1 := set_idToken (Some token) _).
  pose proof (setCredentials_credentials w1 token d eq_refl Hdec) as Hcreds.
  destruct (setCredentials_ok cfg jwtDecode w1 token d eq_refl Hdec)
    as [Hrun [Htok [Hstore [_ [Hto [Htimers [_ Heff]]]]]]].
  unfold exec in *. rewrite Hrun in *. cbn [fst snd] in *.
  rewrite Htok, Hstore, Hto, Htimers, Heff, Hcreds. subst w1. cbn.
  rewrite <- app_assoc. repeat split.
Qed.

(** Whatever else the fragment holds, a non-empty token that decodes opens
    the session: [login()] resolves with it, stores it under the user-pool
    key beside the other entries of the storage, sets it as the session
    token, arms one deadline and issues exactly one exchange. *)
Theorem login_opens_session (w : World) (token : string) (d : DecodedToken) :
  fragment_idToken (hash w) = Some token -> token <> "" ->
  jwtDecode token = Some d ->
  let w' := snd (login cfg jwtDecode w) in
  fst (login cfg jwtDecode w) = Resolved token
  /\ idToken w' = Some token
  /\ localStorage w' = <[cognitoUserPoolId cfg := token]> (localStorage w)
  /\ inactivityTimeout w' = Some (nextHandle w)
  /\ timers w' = (timers w ++ [(nextHandle w, clock w + clientSessionTimeout cfg)])%list
  /\ effects w'
     = (effects w ++ [SetTimeout (nextHandle w) (clientSessionTimeout cfg);
                      CredentialsRefresh (length (promises w))])%list
  /\ option_map Logins (credentials w')
     = Some ("cognito-idp." +:+ cognitoRegion cfg +:+ ".amazonaws.com/"
               +:+ cognitoUserPoolId cfg, token).
Proof.
  intros Hfrag Hne Hdec. cbv zeta. unfold login.
  rewrite Hfrag, (truthy_Some _ Hne). unfold localStorage_setItem.
  rewrite !bind_modify. cbn [default].
  set (w1 := set_idToken (Some token) _).
  pose proof (setCredentials_credentials w1 token d eq_refl Hdec) as Hcreds.
  destruct (setCredentials_ok cfg jwtDecode w1 token d eq_refl Hdec)
    as [Hrun [Htok [Hstore [_ [Hto [Htimers [_ Heff]]]]]]].
  unfold exec in *. rewrite Hrun in *. cbn [fst snd] in *.
  rewrite Htok, Hstore, Hto, Htimers, Heff, Hcreds. subst w1. cbn.
  repeat split.
Qed.

(** A token that does not decode is refused too late: [login()] rejects
    with the decoder's error only after it has stored the token, set it as
    the session token and armed a deadline; no exchange is issued. *)
Theorem login_rejects_after_storing (w : World) (token : string) :
  fragment_idToken (hash w) = Some token -> token <> "" ->
  jwtDecode token = None ->
  let w' := snd (login cfg jwtDecode w) in
  fst (login cfg jwtDecode w) = Rejected (InvalidTokenError (Some token))
  /\ idToken w' = Some token
  /\ authenticated w' = true
  /\ localStorage w' = <[cognitoUserPoolId cfg := token]> (localStorage w)
  /\ inactivityTimeout w' = Some (nextHandle w)
  /\ effects w' = (effects w ++ [SetTimeout (nextHandle w) (clientSessionTimeout cfg)])%list
  /\ promises w' = promises w.
Proof.
  intros Hfrag Hne Hdec. cbv zeta. unfold login.
  rewrite Hfrag, (truthy_Some _ Hne). unfold localStorage_setItem.
  rewrite !bind_modify. cbn [default].
  set (w1 := set_idToken (Some token) _).
  destruct (setCredentials_frame cfg jwtDecode w1) as [_ [Hstore _]].
  destruct (setCredentials_throws cfg jwtDecode w1 token eq_refl Hdec)
    as [Hrun [Htok [Hto Heff]]].
  assert (Hps : promises (exec (setCredentials cfg jwtDecode) w1) = promises w1).
  { unfold exec, setCredentials, setTimeout, new_promise, emit, decode.
    cbv [bind gets modify ret throw]. simpl. now rewrite Hdec. }
  unfold exec in *. rewrite Hrun in *. cbn [fst snd] in *.
  unfold authenticated. rewrite Htok, Hstore, Hto, Heff, Hps, (truthy_Some _ Hne).
  subst w1. cbn. repeat split.
Qed.

End SessionFacts.

Lemma init_restores_witness :
  let w := pageLoad {[ Demo.pool := "REG" ]} "" Demo.now in
  let w' := exec (init Demo.cfg Demo.jwtDecode) w in
  localStorage w !! cognitoUserPoolId Demo.cfg = Some "REG" /\ "REG" <> ""
  /\ clock w < 2000000000 * 1000
  /\ idToken w' = Some "REG"
  /\ localStorage w' = localStorage w
  /\ inactivityTimeout w' = Some (nextHandle w)
  /\ timers w'
     = (timers w ++ [(nextHandle w, clock w + clientSessionTimeout Demo.cfg)])%list
  /\ effects w'
     = (effects w ++ [InitApiGatewayClient None;
                      SetTimeout (nextHandle w) (clientSessionTimeout Demo.cfg);
                      CredentialsRefresh (length (promises w))])%list
  /\ option_map RoleArn (credentials w')
     = Some (Some "arn:aws:iam::1:role/portal-CognitoRegisteredRole-X2").
Proof.
  intros w w'.
  assert (Hstored : localStorage w !! cognitoUserPoolId Demo.cfg = Some "REG")
    by (vm_compute; reflexivity).
  assert (Hne : "REG" <> "") by discriminate.
  assert (Hfresh : clock w < 2000000000 * 1000) by (vm_compute; reflexivity).
  split; [exact Hstored | split; [exact Hne | split; [exact Hfresh |]]].
  exact (init_restores Demo.cfg Demo.jwtDecode w "REG" _ 2000000000
           Hstored Hne eq_refl eq_refl Hfresh).
Defined.

Lemma login_opens_session_witness :
  let w := pageLoad {[ "theme" := "dark" ]} "#state=7&id_token=NOROLE" Demo.now in
  let w' := snd (login Demo.cfg Demo.jwtDecode w) in
  fragment_idToken (hash w) = Some "NOROLE" /\ "NOROLE" <> ""
  /\ fst (login Demo.cfg Demo.jwtDecode w) = Resolved "NOROLE"
  /\ idToken w' = Some "NOROLE"
  /\ localStorage w' = <[cognitoUserPoolId Demo.cfg := "NOROLE"]> (localStorage w)
  /\ inactivityTimeout w' = Some (nextHandle w)
  /\ timers w'
     = (timers w ++ [(nextHandle w, clock w + clientSessionTimeout Demo.cfg)])%list
  /\ effects w'
     = (effects w ++ [SetTimeout (nextHandle w) (clientSessionTimeout Demo.cfg);
                      CredentialsRefresh (length (promises w))])%list
  /\ option_map Logins (credentials w')
     = Some ("cognito-idp." +:+ cognitoRegion Demo.cfg +:+ ".amazonaws.com/"
               +:+ cognitoUserPoolId Demo.cfg, "NOROLE").
Proof.
  intros w w'.
  assert (Hne : "NOROLE" <> "") by discriminate.
  split; [reflexivity | split; [exact Hne |]].
  exact (login_opens_session Demo.cfg Demo.jwtDecode w "NOROLE" _ eq_refl Hne eq_refl).
Defined.

Lemma login_rejects_after_storing_witness :
  let w := pageLoad ∅ "#id_token=garbage" Demo.now in
  let w' := snd (login Demo.cfg Demo.jwtDecode w) in
  fragment_idToken (hash w) = Some "garbage" /\ "garbage" <> ""
  /\ Demo.jwtDecode "garbage" = None
  /\ fst (login Demo.cfg Demo.jwtDecode w) = Rejected (InvalidTokenError (Some "garbage"))
  /\ idToken w' = Some "garbage"
  /\ authenticated w' = true
  /\ localStorage w' = <[cognitoUserPoolId Demo.cfg := "garbage"]> (localStorage w)
  /\ inactivityTimeout w' = Some (nextHandle w)
  /\ effects w'
     = (effects w ++ [SetTimeout (nextHandle w) (clientSessionTimeout Demo.cfg)])%list
  /\ promises w' = promises w.
Proof.
  intros w w'.
  assert (Hne : "garbage" <> "") by discriminate.
  split; [reflexivity | split; [exact Hne | split; [reflexivity |]]].
  exact (login_rejects_after_storing Demo.cfg Demo.jwtDecode w "garbage"
           eq_refl Hne eq_refl).
Defined.

(** ** Reading the fragment *)

Section MoreFragmentFacts.

(** Splitting distributes over a separator. *)
Lemma split_app_sep (sep : ascii) (s t : string) :
  JsString.split sep (s +:+ String sep t)
  = (JsString.split sep s ++ JsString.split sep t)%list.
Proof.
  induction s as [|c s IH]; simpl.
  - now rewrite Ascii.eqb_refl.
  - destruct (Ascii.eqb c sep); rewrite IH; [reflexivity |].
    destruct (split_cons sep s) as [piece [rest ->]]. reflexivity.
Qed.

(** The last [id_token] pair of the fragment decides, whatever precedes it. *)
Theorem fragment_last_pair_wins (pre token : string) :
  JsString.mem "&" token = false ->
  JsString.mem "=" token = false ->
  fragment_idToken ("#" +:+ pre +:+ "&id_token=" +:+ token) = Some token.
Proof.
  intros Hamp Heq. unfold fragment_idToken.
  change (JsString.strip_hash ("#" +:+ pre +:+ "&id_token=" +:+ token))
    with (pre +:+ String "&" ("id_token=" +:+ token)).
  rewrite split_app_sep, map_app, fold_left_app.
  rewrite (split_none "&" ("id_token=" +:+ token)) by (rewrite mem_app, Hamp; reflexivity).
  cbn [map fold_left].
  change ("id_token=" +:+ token) with ("id_token" +:+ String "=" token).
  rewrite split_app by reflexivity. rewrite (split_none _ _ Heq). reflexivity.
Qed.

(** [split('=')] cuts the value at its first [=]: of a value [a=b] only
    [a] becomes the token. *)
Theorem fragment_value_cut (a b : string) :
  JsString.mem "&" a = false ->
  JsString.mem "=" a = false ->
  JsString.mem "&" b = false ->
  fragment_idToken ("#id_token=" +:+ a +:+ "=" +:+ b) = Some a.
Proof.
  intros Hamp Heq Hb. unfold fragment_idToken.
  change (JsString.strip_hash ("#id_token=" +:+ a +:+ "=" +:+ b))
    with ("id_token=" +:+ a +:+ String "=" b).
  rewrite split_none by (rewrite !mem_app, Hamp; simpl; exact Hb).
  cbn [map fold_left].
  change ("id_token=" +:+ a +:+ String "=" b)
    with ("id_token" +:+ String "=" (a +:+ String "=" b)).
  rewrite split_app by reflexivity. rewrite (split_app _ _ _ Heq). reflexivity.
Qed.

End MoreFragmentFacts.

Lemma fragment_last_pair_wins_witness :
  JsString.mem "&" "REG" = false /\ JsString.mem "=" "REG" = false
  /\ fragment_idToken ("#" +:+ "id_token=ABC&state=7" +:+ "&id_token=" +:+ "REG")
     = Some "REG".
Proof.
  split; [reflexivity | split; [reflexivity |]].
  exact (fragment_last_pair_wins "id_token=ABC&state=7" "REG" eq_refl eq_refl).
Defined.

Lemma fragment_value_cut_witness :
  JsString.mem "&" "QUJD" = false /\ JsString.mem "=" "QUJD" = false
  /\ JsString.mem "&" "=" = false
  /\ fragment_idToken ("#id_token=" +:+ "QUJD" +:+ "=" +:+ "=") = Some "QUJD".
Proof.
  split; [reflexivity | split; [reflexivity | split; [reflexivity |]]].
  exact (fragment_value_cut "QUJD" "=" eq_refl eq_refl eq_refl).
Defined.

(** ** Invariants of a page *)

Section PageInvariants.

Variable cfg : Config.
Variable jwtDecode : string -> option DecodedToken.

Lemma init_exec (w : World) :
  exists valid es,
    exec (init cfg jwtDecode) w
    = if valid : bool
      then snd (setCredentials cfg jwtDecode
                  (set_idToken (localStorage w !! cognitoUserPoolId cfg)
                     (set_effects (effects w ++ es) w)))
      else exec (logout cfg) (set_effects (effects w ++ es) w).
Proof.
  destruct (init_cases cfg jwtDecode w) as [valid [es [_ [_ [Hinit _]]]]].
  exists valid, es. unfold exec. rewrite Hinit. destruct valid; [| reflexivity].
  now destruct (setCredentials cfg jwtDecode _) as [[p|e] w2].
Qed.

Lemma login_exec (w : World) :
  snd (login cfg jwtDecode w)
  = if truthy (fragment_idToken (hash w))
    then snd (setCredentials cfg jwtDecode
                (set_idToken (fragment_idToken (hash w))
                   (set_localStorage
                      (<[cognitoUserPoolId cfg := default "" (fragment_idToken (hash w))]>
                         (localStorage w)) w)))
    else w.
Proof.
  unfold login. destruct (truthy (fragment_idToken (hash w))); [| reflexivity].
  unfold localStorage_setItem. rewrite !bind_modify.
  now destruct (setCredentials cfg jwtDecode _) as [[p|e] w2].
Qed.

Lemma token_persisted_unauthenticated (w : World) :
  authenticated w = false -> token_persisted cfg w.
Proof. unfold token_persisted. intros ->. discriminate. Qed.

Lemma token_persisted_frame (w w' : World) :
  idToken w' = idToken w ->
  localStorage w' = localStorage w ->
  token_persisted cfg w -> token_persisted cfg w'.
Proof. unfold token_persisted, authenticated. now intros -> ->. Qed.

Lemma run_token_persisted (ev : event) (w : World) :
  token_persisted cfg w -> token_persisted cfg (run cfg jwtDecode ev w).
Proof.
  intros Hw. destruct ev as [| | | | |h|p err|dt|fragment]; cbn [run].
  - destruct (init_exec w) as [valid [es ->]]. destruct valid.
    + set (w1 := set_idToken _ _).
      destruct (setCredentials_frame cfg jwtDecode w1) as [Htok [Hstore _]].
      unfold token_persisted. intros _. now rewrite Htok, Hstore.
    + apply token_persisted_unauthenticated, logout_unauthenticated.
  - rewrite login_exec.
    destruct (truthy (fragment_idToken (hash w))) eqn:Htruthy; [| exact Hw].
    apply truthy_is_Some in Htruthy as [token [Hfrag _]]. rewrite Hfrag.
    set (w1 := set_idToken _ _).
    destruct (setCredentials_frame cfg jwtDecode w1) as [Htok [Hstore _]].
    unfold token_persisted. intros _. rewrite Htok, Hstore. subst w1. cbn.
    apply lookup_insert_eq.
  - apply token_persisted_unauthenticated, logout_unauthenticated.
  - destruct (refreshActivity_frame cfg w) as [_ [Htok [Hstore _]]].
    now apply (token_persisted_frame w).
  - unfold exec, animationFrame. rewrite bind_gets.
    destruct (frames w); [exact Hw |]. now apply (token_persisted_frame w).
  - unfold exec. rewrite fire_unfold. destruct (is_pending h w); [| exact Hw].
    set (w1 := set_timers _ _ w).
    destruct (logoutInactive_cases cfg w1) as [Hsame | Hout].
    + unfold exec in Hsame. rewrite Hsame. now apply (token_persisted_frame w).
    + now apply token_persisted_unauthenticated.
  - apply (token_persisted_frame w); [| | exact Hw];
      unfold exec, refreshCallback, emit, reject; destruct err as [e|];
      try reflexivity; rewrite bind_modify, bind_gets; cbn [promises set_effects];
      destruct (promises w !! p) as [[| |]|]; reflexivity.
  - now apply (token_persisted_frame w).
  - now apply (token_persisted_frame w).
Qed.

(** While a session is authenticated, the storage holds its token under
    the user-pool key: [login()] and [init()] set the two together and both
    logouts clear them together. *)
Theorem session_token_persisted (w : World) :
  reachable cfg jwtDecode w ->
  authenticated w = true ->
  localStorage w !! cognitoUserPoolId cfg = idToken w.
Proof.
  intros Hreach. change (token_persisted cfg w).
  induction Hreach as [storage fragment now | ev w _ IH].
  - now apply token_persisted_unauthenticated.
  - now apply run_token_persisted.
Qed.

Lemma none_resolved_frame (w w' : World) :
  promises w' = promises w -> none_resolved w -> none_resolved w'.
Proof. unfold none_resolved. now intros ->. Qed.

Lemma setCredentials_none_resolved (w : World) :
  none_resolved w -> none_resolved (snd (setCredentials cfg jwtDecode w)).
Proof.
  intros Hw. destruct (setCredentials_frame cfg jwtDecode w) as [_ [_ [[Hps | Hps] _]]].
  - now apply (none_resolved_frame w).
  - unfold none_resolved. rewrite Hps. intros i v.
    now apply list_lookup_snoc_Resolved.
Qed.

Lemma refreshCallback_none_resolved (w : World) (p : nat) (err : option error) :
  none_resolved w -> none_resolved (exec (refreshCallback p err) w).
Proof.
  intros Hw. unfold exec, refreshCallback, emit, reject. destruct err as [e|].
  - rewrite bind_modify, bind_gets. cbn [promises set_effects].
    destruct (promises w !! p) as [[| |]|] eqn:Hp; try exact Hw.
    unfold none_resolved. cbn. intros i v Hi.
    destruct (decide (p = i)) as [<- | Hne].
    + rewrite list_lookup_insert_eq in Hi by (now apply lookup_lt_Some in Hp).
      discriminate.
    + rewrite list_lookup_insert_ne in Hi by exact Hne. exact (Hw _ _ Hi).
  - exact Hw.
Qed.

Lemma run_none_resolved (ev : event) (w : World) :
  none_resolved w -> none_resolved (run cfg jwtDecode ev w).
Proof.
  intros Hw. destruct ev as [| | | | |h|p err|dt|fragment]; cbn [run].
  - destruct (init_exec w) as [valid [es ->]]. destruct valid.
    + now apply setCredentials_none_resolved.
    + apply (none_resolved_frame w); [| exact Hw]. now rewrite logout_promises.
  - rewrite login_exec. destruct (truthy (fragment_idToken (hash w))); [| exact Hw].
    now apply setCredentials_none_resolved.
  - apply (none_resolved_frame w); [| exact Hw]. apply logout_promises.
  - destruct (refreshActivity_frame cfg w) as [_ [_ [_ [Hps _]]]].
    now apply (none_resolved_frame w).
  - unfold exec, animationFrame. rewrite bind_gets.
    destruct (frames w); [exact Hw |]. now apply (none_resolved_frame w).
  - unfold exec. rewrite fire_unfold. destruct (is_pending h w); [| exact Hw].
    apply (none_resolved_frame w); [| exact Hw].
    pose proof (logoutInactive_promises cfg
                  (set_timers (nextHandle w) (cancel (Some h) (timers w)) w)) as Hps.
    unfold exec in Hps. now rewrite Hps.
  - now apply refreshCallback_none_resolved.
  - now apply (none_resolved_frame w).
  - now apply (none_resolved_frame w).
Qed.

(** The promise of [setCredentials()] is never fulfilled: on every
    reachable page each promise is pending or rejected, and the callback of
    a successful exchange leaves the promises as they are. *)
Theorem refresh_promise_never_resolved (w : World) (p i : nat) (v : unit) :
  reachable cfg jwtDecode w ->
  promises w !! i <> Some (Resolved v)
  /\ promises (exec (refreshCallback p None) w) = promises w.
Proof.
  intros Hreach. split; [| reflexivity].
  assert (Hinv : none_resolved w).
  { induction Hreach as [storage fragment now | ev w _ IH].
    - intros j u Hj. cbn in Hj. rewrite lookup_nil in Hj. discriminate.
    - now apply run_none_resolved. }
  apply Hinv.
Qed.

End PageInvariants.

Lemma session_token_persisted_witness :
  reachable Demo.cfg Demo.jwtDecode Pages.relogged
  /\ authenticated Pages.relogged = true
  /\ localStorage Pages.relogged !! cognitoUserPoolId Demo.cfg = idToken Pages.relogged.
Proof.
  assert (Hreach : reachable Demo.cfg Demo.jwtDecode Pages.relogged).
  { unfold Pages.relogged, runs. cbn [fold_left]. repeat apply reachable_run.
    apply reachable_fresh. }
  split; [exact Hreach | split; [reflexivity |]].
  exact (session_token_persisted Demo.cfg Demo.jwtDecode Pages.relogged Hreach eq_refl).
Defined.

Lemma refresh_promise_never_resolved_witness :
  let w := run Demo.cfg Demo.jwtDecode (RefreshDone 0 None) Demo.loggedIn in
  reachable Demo.cfg Demo.jwtDecode w
  /\ promises w !! 0%nat <> Some (Resolved tt)
  /\ promises (exec (refreshCallback 0 None) w) = promises w.
Proof.
  intros w.
  assert (Hreach : reachable Demo.cfg Demo.jwtDecode w).
  { repeat apply reachable_run. apply reachable_fresh. }
  split; [exact Hreach |].
  exact (refresh_promise_never_resolved Demo.cfg Demo.jwtDecode w 0 0 tt Hreach).
Defined.

(** After a successful exchange on the concrete portal the promise is
    still pending. *)
Example refresh_success_demo :
  let w := run Demo.cfg Demo.jwtDecode (RefreshDone 0 None) Demo.loggedIn in
  promises w = [Pending]
  /\ List.filter (fun e => negb (is_reschedule e || is_exchange e)) (effects w)
     = [InitApiGatewayClient (credentials Demo.loggedIn); UpdateAllUserData; PostSignin].
Proof. vm_compute. repeat split. Qed.

(** ** Activity and the deadlines it does not know *)

Section MoreActivityFacts.

Variable cfg : Config.

Lemma cancel_length (h : positive) (q : list (positive * Z)) :
  existsb (fun t => Pos.eqb (fst t) h) q = true ->
  (length (cancel (Some h) q) < length q)%nat.
Proof.
  unfold cancel. induction q as [|t q IH]; simpl; [discriminate |].
  pose proof (List.filter_length_le (fun t => negb (Pos.eqb (fst t) h)) q) as Hle.
  destruct (Pos.eqb (fst t) h); simpl; [lia |].
  intros Hq. specialize (IH Hq). lia.
Qed.

Lemma existsb_cancel_other (h h' : positive) (q : list (positive * Z)) :
  h' <> h ->
  existsb (fun t => Pos.eqb (fst t) h') (cancel (Some h) q)
  = existsb (fun t => Pos.eqb (fst t) h') q.
Proof.
  intros Hne. unfold cancel. induction q as [|t q IH]; simpl; [reflexivity |].
  destruct (Pos.eqb_spec (fst t) h) as [Heq | Hdiff]; simpl.
  - rewrite IH. destruct (Pos.eqb_spec (fst t) h'); [congruence | reflexivity].
  - now rewrite IH.
Qed.

(** A signal never lengthens the queue of deadlines while the recorded
    deadline is pending: it is cancelled before the new one is set. *)
Theorem activity_never_accumulates (w : World) (h : positive) :
  inactivityTimeout w = Some h ->
  is_pending h w = true ->
  (length (timers (exec (refreshActivity cfg) w)) <= length (timers w))%nat.
Proof.
  intros Hh Hp. destruct (hasReset w) eqn:Hreset.
  - unfold exec. now rewrite refreshActivity_throttled.
  - destruct (refreshActivity_reset cfg w h Hh Hreset) as [_ [_ [_ [_ [Htimers _]]]]].
    rewrite Htimers, length_app. cbn [length].
    pose proof (cancel_length h (timers w) Hp). lia.
Qed.

(** However many signals arrive, they never throw and leave the token, the
    storage, the credentials and the promises alone, navigate nowhere and
    issue no exchange. *)
Theorem activity_leaves_session (n : nat) (w : World) :
  idToken (signals cfg n w) = idToken w
  /\ localStorage (signals cfg n w) = localStorage w
  /\ credentials (signals cfg n w) = credentials w
  /\ promises (signals cfg n w) = promises w
  /\ count is_navigate (effects (signals cfg n w)) = count is_navigate (effects w)
  /\ count is_exchange (effects (signals cfg n w)) = count is_exchange (effects w)
  /\ eval (refreshActivity cfg) (signals cfg n w) = Ret tt.
Proof.
  induction n as [|n IH].
  - repeat split. apply (refreshActivity_frame cfg w).
  - destruct IH as [Htok [Hstore [Hcreds [Hps [Hnav [Hexch _]]]]]].
    change (signals cfg (S n) w) with (exec (refreshActivity cfg) (signals cfg n w)).
    set (w1 := signals cfg n w) in *.
    destruct (refreshActivity_frame cfg w1)
      as [_ [Htok1 [Hstore1 [Hps1 [Hcreds1 [es [Heff [Hnav1 Hexch1]]]]]]]].
    rewrite Htok1, Hstore1, Hps1, Hcreds1, Heff, !count_app.
    repeat split; try assumption; try lia.
    apply (refreshActivity_frame cfg (exec (refreshActivity cfg) w1)).
Qed.

Lemma fire_clears_token (w : World) (h : positive) :
  is_pending h w = true ->
  is_Some (inactivityTimeout w) ->
  hasReset w = false ->
  idToken (exec (fire cfg h) w) = None \/ authenticated w = false.
Proof.
  intros Hp [h0 Hh] Hreset. unfold exec. rewrite fire_unfold, Hp.
  unfold logoutInactive. rewrite !bind_gets.
  cbn [inactivityTimeout hasReset set_timers]. rewrite Hh, Hreset.
  rewrite bool_decide_true by eauto. cbn [negb orb].
  rewrite bind_modify, bind_gets. cbn [idToken set_inactivityTimeout set_timers].
  unfold authenticated. destruct (truthy (idToken w)); [left | now right].
  destruct (truthy (cognitoDomain cfg)); reflexivity.
Qed.

(** A signal cancels only the recorded deadline: another pending deadline,
    such as one left by an earlier [setCredentials()], stays pending, and
    when it comes due after the next animation frame it ends the session in
    spite of the activity. *)
Theorem unrecorded_deadline_ends_session (w : World) (h h' : positive) :
  inactivityTimeout w = Some h ->
  hasReset w = false ->
  authenticated w = true ->
  h' <> h ->
  is_pending h' w = true ->
  let w1 := exec (refreshActivity cfg) w in
  let w2 := exec animationFrame w1 in
  is_pending h' w1 = true
  /\ authenticated w2 = true
  /\ idToken (exec (fire cfg h') w2) = None.
Proof.
  intros Hh Hreset Hauth Hne Hp. cbv zeta.
  destruct (refreshActivity_reset cfg w h Hh Hreset)
    as [_ [Hf [Hto [_ [Htimers [_ [Htok _]]]]]]].
  set (w1 := exec (refreshActivity cfg) w) in *.
  assert (Hp1 : is_pending h' w1 = true).
  { unfold is_pending. rewrite Htimers, existsb_app, (existsb_cancel_other h h' _ Hne).
    unfold is_pending in Hp. now rewrite Hp. }
  assert (Hframe : exec animationFrame w1 = set_hasReset false (set_frames 0 w1)).
  { unfold exec, animationFrame. rewrite bind_gets, Hf. reflexivity. }
  rewrite Hframe. set (w2 := set_hasReset false (set_frames 0 w1)).
  assert (Hauth2 : authenticated w2 = true).
  { unfold authenticated. change (idToken w2) with (idToken w1). now rewrite Htok. }
  split; [exact Hp1 | split; [exact Hauth2 |]].
  destruct (fire_clears_token w2 h') as [Hnone | Hno].
  - exact Hp1.
  - change (inactivityTimeout w2) with (inactivityTimeout w1). rewrite Hto. eauto.
  - reflexivity.
  - exact Hnone.
  - rewrite Hauth2 in Hno. discriminate.
Qed.

End MoreActivityFacts.

Lemma activity_never_accumulates_witness :
  inactivityTimeout Demo.restored = Some 1%positive
  /\ is_pending 1 Demo.restored = true
  /\ (length (timers (exec (refreshActivity Demo.cfg) Demo.restored))
      <= length (timers Demo.restored))%nat.
Proof.
  split; [reflexivity | split; [reflexivity |]].
  exact (activity_never_accumulates Demo.cfg Demo.restored 1%positive eq_refl eq_refl).
Defined.

Lemma unrecorded_deadline_ends_session_witness :
  let w := Pages.relogged in
  let w1 := exec (refreshActivity Demo.cfg) w in
  let w2 := exec animationFrame w1 in
  inactivityTimeout w = Some 2%positive /\ hasReset w = false
  /\ authenticated w = true /\ 1%positive <> 2%positive
  /\ is_pending 1 w = true
  /\ is_pending 1 w1 = true
  /\ authenticated w2 = true
  /\ idToken (exec (fire Demo.cfg 1) w2) = None.
Proof.
  intros w w1 w2.
  assert (Hne : 1%positive <> 2%positive) by discriminate.
  split; [reflexivity | split; [reflexivity | split; [reflexivity |]]].
  split; [exact Hne | split; [reflexivity |]].
  exact (unrecorded_deadline_ends_session Demo.cfg w 2%positive 1%positive
           eq_refl eq_refl eq_refl Hne eq_refl).
Defined.

(** ** The menu of the navigation bar *)

Section MenuFacts.

Variable cfg : Config.
Variable jwtDecode : string -> option DecodedToken.

Lemma isAdmin_throws (w : World) (token : string) :
  idToken w = Some token -> token <> "" ->
  jwtDecode token = None ->
  isAdmin jwtDecode w = (Throw (InvalidTokenError (Some token)), w).
Proof.
  intros Htok Hne Hdec.
  assert (Hrole : getPreferredRole jwtDecode w
                  = (Throw (InvalidTokenError (Some token)), w)).
  { unfold getPreferredRole. rewrite bind_gets, Htok. unfold decode.
    rewrite Hdec. reflexivity. }
  unfold isAdmin. rewrite bind_gets, Htok, (truthy_Some _ Hne).
  now rewrite (bind_Throw _ _ _ _ _ Hrole).
Qed.

(** In an authenticated session whose token decodes, the menu offers the
    dashboard and the sign-out entry, never the sign-in entries, and the
    admin panel exactly when the role string contains
    [-CognitoAdminRole-]. *)
Theorem menu_of_session (w : World) (token : string) (d : DecodedToken) :
  idToken w = Some token -> token <> "" ->
  jwtDecode token = Some d ->
  exists items,
    insertAuthMenu cfg jwtDecode w = (Ret items, w)
    /\ (In AdminPanel items <->
        exists pre post,
          default "" (preferred_role d) = pre +:+ "-CognitoAdminRole-" +:+ post)
    /\ In MyDashboard items
    /\ In SignOut items
    /\ ~ In RegisterItem items
    /\ forall href, ~ In (SignIn href) items.
Proof.
  intros Htok Hne Hdec. unfold insertAuthMenu, isAuthenticated.
  rewrite bind_gets, Htok, (truthy_Some _ Hne).
  rewrite (bind_Ret _ _ _ _ _ (isAdmin_decoded jwtDecode w token d Htok Hne Hdec)).
  cbn [to_boolean]. eexists. split; [reflexivity |].
  rewrite <- includes_app.
  destruct (JsString.includes "-CognitoAdminRole-" (default "" (preferred_role d)));
    cbn; intuition congruence.
Qed.

(** After [logout()], from whatever state, the menu is the sign-in entry,
    which leads to the hosted login and back to the [/login] page, and the
    registration entry. *)
Theorem menu_after_logout (w : World) :
  insertAuthMenu cfg jwtDecode (exec (logout cfg) w)
  = (Ret [SignIn (interpolate (cognitoDomain cfg)
                    +:+ "/login?response_type=token&client_id=" +:+ cognitoClientId cfg
                    +:+ "&redirect_uri=" +:+ protocol cfg +:+ "//" +:+ host cfg
                    +:+ "/login");
          RegisterItem],
     exec (logout cfg) w).
Proof.
  pose proof (logout_unauthenticated cfg w) as Hno. unfold authenticated in Hno.
  unfold insertAuthMenu, isAuthenticated. rewrite bind_gets, Hno.
  unfold getCognitoUrl, ret. repeat f_equal.
Qed.

(** After [login()] has stored a token that does not decode, building the
    menu throws the decoder's error. *)
Theorem menu_throws_after_bad_login (w : World) (token : string) :
  fragment_idToken (hash w) = Some token -> token <> "" ->
  jwtDecode token = None ->
  eval (insertAuthMenu cfg jwtDecode) (snd (login cfg jwtDecode w))
  = Throw (InvalidTokenError (Some token)).
Proof.
  intros Hfrag Hne Hdec. rewrite login_exec, Hfrag, (truthy_Some _ Hne).
  set (w1 := set_idToken _ _).
  destruct (setCredentials_frame cfg jwtDecode w1) as [Htok _].
  set (w2 := snd (setCredentials cfg jwtDecode w1)) in *.
  change (idToken w1) with (Some token) in Htok.
  unfold eval, insertAuthMenu, isAuthenticated.
  rewrite bind_gets, Htok, (truthy_Some _ Hne).
  now rewrite (bind_Throw _ _ _ _ _ (isAdmin_throws w2 token Htok Hne Hdec)).
Qed.

End MenuFacts.

Lemma menu_of_session_witness :
  idToken Pages.registered = Some "REG" /\ "REG" <> ""
  /\ exists items,
      insertAuthMenu Demo.cfg Demo.jwtDecode Pages.registered
      = (Ret items, Pages.registered)
      /\ (In AdminPanel items <->
          exists pre post,
            "arn:aws:iam::1:role/portal-CognitoRegisteredRole-X2"
            = pre +:+ "-CognitoAdminRole-" +:+ post)
      /\ In MyDashboard items
      /\ In SignOut items
      /\ ~ In RegisterItem items
      /\ forall href, ~ In (SignIn href) items.
Proof.
  assert (Hne : "REG" <> "") by discriminate.
  split; [reflexivity | split; [exact Hne |]].
  exact (menu_of_session Demo.cfg Demo.jwtDecode Pages.registered "REG" _
           eq_refl Hne eq_refl).
Defined.

Lemma menu_throws_after_bad_login_witness :
  let w := pageLoad ∅ "#id_token=garbage" Demo.now in
  fragment_idToken (hash w) = Some "garbage" /\ "garbage" <> ""
  /\ Demo.jwtDecode "garbage" = None
  /\ eval (insertAuthMenu Demo.cfg Demo.jwtDecode) (snd (login Demo.cfg Demo.jwtDecode w))
     = Throw (InvalidTokenError (Some "garbage")).
Proof.
  intros w.
  assert (Hne : "garbage" <> "") by discriminate.
  split; [reflexivity | split; [exact Hne | split; [reflexivity |]]].
  exact (menu_throws_after_bad_login Demo.cfg Demo.jwtDecode w "garbage"
           eq_refl Hne eq_refl).
Defined.

(** The menus of the concrete portal. *)
Example menu_demo :
  eval (insertAuthMenu Demo.cfg Demo.jwtDecode) Demo.restored
  = Ret [AdminPanel; MyDashboard; SignOut]
  /\ eval (insertAuthMenu Demo.cfg Demo.jwtDecode) Pages.registered
     = Ret [MyDashboard; SignOut]
  /\ eval (insertAuthMenu Demo.cfg Demo.jwtDecode) Pages.anonymous
     = Ret [SignIn ("https://auth.example.com/login?response_type=token&client_id=client1"
                    +:+ "&redirect_uri=https://portal.example.com/login");
            RegisterItem].
Proof. vm_compute. repeat split. Qed.
